(** * Verification of [dopamine/discrete_domains/gym_lib.py]

    The development follows the Python module class by class:

    - [GridWorld]   : [DoubleRoomWindyGridWorldEnv] (integer state machine);
    - [Wrapper]     : [GymPreprocessing] (delegation to a wrapped environment);
    - [Fourier]     : the multiplier matrix of [FourierBasis], and its feature
                      map on real numbers (used for its symmetry only);
    - [Network]     : the Rainbow heads, whose [call] fails before any
                      arithmetic matters;
    - [Float], [FTensor], [Network32], [Fourier32] : the arithmetic of the
                      networks as TensorFlow runs it, on binary32 tensors
                      with their static shapes, shape errors included.

    Python integers are [Z]; floating-point numbers are the [spec_float] of
    the standard library. *)

From Stdlib Require Import ZArith List Bool Lia QArith Reals Lra.
From Stdlib Require String SpecFloat.
Import ListNotations.
Import String.StringSyntax.

(** ** Python exceptions and a state-and-exception monad

    A method of an object whose attributes it reads and writes is a function
    from the object to an outcome and the object afterwards.  An exception
    stops the method but keeps the writes made before it. *)

Inductive exn : Type :=
| KeyError
| AttributeError
| AssertionError
| ValueError
| IndexError
| TypeError.

Inductive outcome (A : Type) : Type :=
| Ok (a : A)
| Raise (e : exn).
Arguments Ok {A} a.
Arguments Raise {A} e.

Module PyMonad.

Definition M (S A : Type) : Type := S -> outcome A * S.

Definition ret {S A} (a : A) : M S A := fun s => (Ok a, s).

Definition bind {S A B} (c : M S A) (k : A -> M S B) : M S B :=
  fun s => match c s with
           | (Ok a, s') => k a s'
           | (Raise e, s') => (Raise e, s')
           end.

Definition raise {S A} (e : exn) : M S A := fun s => (Raise e, s).

Definition get {S} : M S S := fun s => (Ok s, s).

Definition put {S} (s : S) : M S unit := fun _ => (Ok tt, s).

(** [assert c] *)
Definition assert {S} (c : bool) : M S unit :=
  if c then ret tt else raise AssertionError.

End PyMonad.

Declare Scope py_scope.
Delimit Scope py_scope with py.
Notation "x <- c ;; k" := (PyMonad.bind c (fun x => k))
  (at level 61, c at next level, right associativity) : py_scope.
Notation "c ;;; k" := (PyMonad.bind c (fun _ => k))
  (at level 61, right associativity) : py_scope.

(** ** Python built-ins on lists of integers *)

Module PyList.

Open Scope Z_scope.

(** [range(n)] *)
Definition range (n : Z) : list Z := map Z.of_nat (seq 0 (Z.to_nat n)).

(** [v in l] *)
Definition contains (l : list Z) (v : Z) : bool := existsb (Z.eqb v) l.

(** [l.index(v)]: position of the first occurrence, [ValueError] if none. *)
Fixpoint index (l : list Z) (v : Z) : option Z :=
  match l with
  | [] => None
  | a :: l' => if a =? v then Some 0 else option_map Z.succ (index l' v)
  end.

(** [l[i]], with Python's negative indices counted from the end. *)
Definition getitem (l : list Z) (i : Z) : option Z :=
  let n := Z.of_nat (length l) in
  let j := if i <? 0 then i + n else i in
  if (0 <=? j) && (j <? n) then nth_error l (Z.to_nat j) else None.

(** [l.remove(v)]: drops the first occurrence, [ValueError] if none. *)
Fixpoint remove (l : list Z) (v : Z) : option (list Z) :=
  match l with
  | [] => None
  | a :: l' => if a =? v then Some l' else option_map (cons a) (remove l' v)
  end.

(** [d[k]] for a dict held as the list of its items. *)
Fixpoint dict_get {V : Type} (d : list (Z * V)) (k : Z) : option V :=
  match d with
  | [] => None
  | (k', v) :: d' => if k' =? k then Some v else dict_get d' k
  end.

(** [np.clip(v, lo, hi)] is [minimum(maximum(v, lo), hi)]. *)
Definition clip (v lo hi : Z) : Z := Z.min (Z.max v lo) hi.

End PyList.

(** ** [DoubleRoomWindyGridWorldEnv] *)

Module GridWorld.

Import PyMonad PyList.
Open Scope Z_scope.
Open Scope py_scope.

(** The attributes of the object.  [x] and [y] do not exist before the first
    [reset()]; reading them then raises [AttributeError]. *)
Record Env : Type := mkEnv {
  width : Z;
  height : Z;
  moves : list (Z * (Z * Z));
  windy_columns : list Z;
  windy_levels : list Z;
  start_state : Z * Z;
  goal_state : Z * Z;
  random_action_prob : Q;
  door_y : Z;
  wall_xs : list Z;
  x : option Z;
  y : option Z
}.

Definition set_x (v : Z) (e : Env) : Env :=
  mkEnv (width e) (height e) (moves e) (windy_columns e) (windy_levels e)
        (start_state e) (goal_state e) (random_action_prob e) (door_y e)
        (wall_xs e) (Some v) (y e).

Definition set_y (v : Z) (e : Env) : Env :=
  mkEnv (width e) (height e) (moves e) (windy_columns e) (windy_levels e)
        (start_state e) (goal_state e) (random_action_prob e) (door_y e)
        (wall_xs e) (x e) (Some v).

(** [__init__]: [int((width - 1) / 2)] is a true division truncated towards
    zero; [wall_xs.remove(3)] cannot raise since 3 is in [range(height)]. *)
Definition init : Env :=
  let width := 5 * 2 + 1 in
  let height := 14 in
  let wall_xs := range height in
  let wall_xs := match remove wall_xs 3 with Some l => l | None => wall_xs end in
  {| width := width;
     height := height;
     moves := [(0, (-1, 0)); (1, (0, 1)); (2, (1, 0)); (3, (0, -1))];
     windy_columns := [1; 2; 3; 4];
     windy_levels := [1; 2; 2; 2];
     start_state := (height - 1, 0);
     goal_state := (height - 1, width - 1);
     random_action_prob := 1 # 10;
     door_y := Z.quot (width - 1) 2;
     wall_xs := wall_xs;
     x := None;
     y := None |}.

(** The two draws of one call of [step]: [np.random.random()] and
    [np.random.choice(range(4))] (the latter is only consulted on a slip). *)
Record Rand : Type := mkRand {
  uniform : Q;
  choice : Z
}.

Definition Qltb (a b : Q) : bool := negb (Qle_bool b a).

(** Attribute reads and writes. *)
Definition attr {A} (f : Env -> option A) : M Env A :=
  fun e => match f e with
           | Some v => (Ok v, e)
           | None => (Raise AttributeError, e)
           end.

Definition lift {A} (err : exn) (o : option A) : M Env A :=
  match o with
  | Some v => ret v
  | None => raise err
  end.

Definition write_x (v : Z) : M Env unit := fun e => (Ok tt, set_x v e).
Definition write_y (v : Z) : M Env unit := fun e => (Ok tt, set_y v e).

Definition pair_eqb (p q : Z * Z) : bool :=
  (fst p =? fst q) && (snd p =? snd q).

(** [step(action)]: returns [(next_state, reward, done)]; the fourth
    component of the Python tuple is the constant [None]. *)
Definition step (action : Z) (rnd : Rand) : M Env ((Z * Z) * Z * bool) :=
  self <- get ;;
  let real_action := action in
  let real_action :=
    if Qltb (uniform rnd) (random_action_prob self) then choice rnd
    else real_action in
  mv <- lift KeyError (dict_get (moves self) real_action) ;;
  let '(move_x, move_y) := mv in
  sx <- attr x ;;
  sy <- attr y ;;
  let last_position := (sx, sy) in
  cy <- attr y ;;
  (if contains (windy_columns self) cy then
     cy <- attr y ;;
     i <- lift ValueError (index (windy_columns self) cy) ;;
     lvl <- lift IndexError (getitem (windy_levels self) i) ;;
     cx <- attr x ;;
     write_x (cx - lvl)
   else ret tt) ;;;
  cx <- attr x ;;
  cy <- attr y ;;
  let next_x := if cy =? door_y self then cx else cx + move_x in
  write_x (clip next_x 0 (height self - 1)) ;;;
  cx <- attr x ;;
  cy <- attr y ;;
  let next_y :=
    if cy + move_y =? door_y self then
      (if contains (wall_xs self) cx then cy else door_y self)
    else cy + move_y in
  write_y (clip next_y 0 (width self - 1)) ;;;
  cx <- attr x ;;
  cy <- attr y ;;
  assert (negb (contains (wall_xs self) cx && (cy =? door_y self))) ;;;
  let next_state := (cx, cy) in
  let reward := if pair_eqb next_state (goal_state self) then 1 else 0 in
  let done := pair_eqb next_state (goal_state self) in
  ret (next_state, reward, done).

(** [reset()] *)
Definition reset : M Env ((Z * Z) * Z * bool) :=
  self <- get ;;
  write_x (fst (start_state self)) ;;;
  write_y (snd (start_state self)) ;;;
  ret (start_state self, 0, false).

(** *** Vocabulary of the statements about the grid *)

(** The object after [__init__] with its position set to [(vx, vy)]. *)
Definition at_pos (vx vy : Z) : Env := set_y vy (set_x vx init).

(** The action [step] executes: the given one, or the drawn one on a slip. *)
Definition executed (self : Env) (action : Z) (rnd : Rand) : Z :=
  if Qltb (uniform rnd) (random_action_prob self) then choice rnd else action.

(** The wind level of a column: that of its entry in [windy_levels] when the
    column is windy, none otherwise. *)
Definition wind_of (self : Env) (col : Z) : Z :=
  match index (windy_columns self) col with
  | Some i => match getitem (windy_levels self) i with
              | Some lvl => lvl
              | None => 0
              end
  | None => 0
  end.

(** The states of an object on which [reset()] was called and then [step]
    (with an action index 0..3 and any draws) and [reset()] any number of
    times. *)
Inductive reachable : Env -> Prop :=
| reach_reset : reachable (snd (reset init))
| reach_step (e : Env) (action : Z) (rnd : Rand) :
    reachable e -> 0 <= action < 4 -> 0 <= choice rnd < 4 ->
    reachable (snd (step action rnd e))
| reach_reset_again (e : Env) :
    reachable e -> reachable (snd (reset e)).

(** The row and the column [step] writes, from the position before the call
    and the move [(dx, dy)] of the executed action. *)
Definition next_x (vx vy dx : Z) : Z :=
  clip (vx - wind_of init vy + (if vy =? 5 then 0 else dx)) 0 13.

Definition next_y (nx vy dy : Z) : Z :=
  clip (if vy + dy =? 5
        then (if contains (wall_xs init) nx then vy else 5)
        else vy + dy) 0 10.

(** The invariant: a position inside the grid and not in the wall. *)
Definition inv (e : Env) : Prop :=
  exists vx vy, e = at_pos vx vy
                /\ 0 <= vx <= 13 /\ 0 <= vy <= 10
                /\ contains (wall_xs init) vx && (vy =? 5) = false.

End GridWorld.

(** ** [GymPreprocessing] *)

Module Wrapper.

Import PyMonad.
Open Scope py_scope.

(** What the wrapper uses of the environment it is given: four attributes
    and the two methods, which may change the environment and may raise. *)
Class GymEnv (E : Type) : Type := {
  Space : Type;
  RewardRange : Type;
  Metadata : Type;
  Action : Type;
  Observation : Type;
  Reward : Type;
  Info : Type;
  ResetResult : Type;
  env_observation_space : E -> Space;
  env_action_space : E -> Space;
  env_reward_range : E -> RewardRange;
  env_metadata : E -> Metadata;
  env_reset : M E ResetResult;
  env_step : Action -> M E (Observation * Reward * bool * Info)
}.

Section Preprocessing.

Context {E : Type} `{GymEnv E}.

Record GymPreprocessing : Type := mkWrapper {
  environment : E;
  game_over : bool
}.

(** [__init__] *)
Definition new (environment : E) : GymPreprocessing :=
  {| environment := environment; game_over := false |}.

(** A method call on [self.environment]. *)
Definition on_environment {A} (c : M E A) : M GymPreprocessing A :=
  fun self =>
    let (r, e') := c (environment self) in
    (r, {| environment := e'; game_over := game_over self |}).

Definition write_game_over (b : bool) : M GymPreprocessing unit :=
  fun self => (Ok tt, {| environment := environment self; game_over := b |}).

Definition observation_space (self : GymPreprocessing) : Space :=
  env_observation_space (environment self).

Definition action_space (self : GymPreprocessing) : Space :=
  env_action_space (environment self).

Definition reward_range (self : GymPreprocessing) : RewardRange :=
  env_reward_range (environment self).

Definition metadata (self : GymPreprocessing) : Metadata :=
  env_metadata (environment self).

Definition reset : M GymPreprocessing ResetResult :=
  on_environment env_reset.

Definition step (action : Action)
  : M GymPreprocessing (Observation * Reward * bool * Info) :=
  r <- on_environment (env_step action) ;;
  let '(observation, reward, game_over, info) := r in
  write_game_over game_over ;;;
  ret (observation, reward, game_over, info).

(** [n] calls of [reset()] in a row, whatever each of them returns. *)
Fixpoint resets (n : nat) (self : GymPreprocessing) : GymPreprocessing :=
  match n with
  | O => self
  | S n' => resets n' (snd (reset self))
  end.

End Preprocessing.

Arguments GymPreprocessing E : clear implicits.

(** A small environment to run the wrapper on: a countdown that is over when
    it reaches zero, and whose [step] raises once it is over. *)
Module Countdown.

Definition t : Type := nat.

Definition countdown_reset : M t nat := fun _ => (Ok 3%nat, 3%nat).

Definition countdown_step (_ : unit) : M t (nat * Z * bool * unit) :=
  fun s => match s with
           | O => (Raise ValueError, s)
           | S s' => (Ok (s', 1%Z, Nat.eqb s' 0, tt), s')
           end.

#[export] Instance countdown_env : GymEnv t := {|
  Space := nat;
  RewardRange := Z * Z;
  Metadata := list nat;
  env_observation_space := fun _ => 4%nat;
  env_action_space := fun _ => 1%nat;
  env_reward_range := fun _ => (0%Z, 1%Z);
  env_metadata := fun _ => [];
  env_reset := countdown_reset;
  env_step := countdown_step
|}.

End Countdown.

End Wrapper.

(** ** Tensors of reals *)

Module Tensor.

Open Scope R_scope.

Definition vec : Type := list R.
Definition mat : Type := list vec.

(** An array of minimum or maximum values: a number (the default
    [min_vals=0]) or a vector, broadcast against the last axis. *)
Inductive bound : Type :=
| Scalar (c : R)
| Vector (v : vec).

Fixpoint map2 {A B C} (f : A -> B -> C) (l : list A) (l' : list B) : list C :=
  match l, l' with
  | a :: t, b :: t' => f a b :: map2 f t t'
  | _, _ => []
  end.

(** [row op b], elementwise with broadcasting. *)
Definition broadcast (op : R -> R -> R) (row : vec) (b : bound) : vec :=
  match b with
  | Scalar c => map (fun a => op a c) row
  | Vector v => map2 op row v
  end.

(** [b op b'] for two such arrays. *)
Definition bound_op (op : R -> R -> R) (b b' : bound) : bound :=
  match b, b' with
  | Scalar c, Scalar c' => Scalar (op c c')
  | Scalar c, Vector v' => Vector (map (fun a => op c a) v')
  | Vector v, Scalar c' => Vector (map (fun a => op a c') v)
  | Vector v, Vector v' => Vector (map2 op v v')
  end.

Definition sum (v : vec) : R := fold_right Rplus 0 v.

Definition dot (u v : vec) : R := sum (map2 Rmult u v).

(** [tf.matmul(a, b, transpose_b=True)] *)
Definition matmul_transpose_b (a b : mat) : mat :=
  map (fun row => map (fun col => dot row col) b) a.

(** [tf.nn.softmax] along the last axis. *)
Definition softmax (v : vec) : vec :=
  let total := sum (map exp v) in
  map (fun a => exp a / total) v.

End Tensor.

(** ** [FourierBasis] *)

Module Fourier.

Import PyMonad PyList Tensor.
Open Scope py_scope.

Record FourierBasis : Type := mkFourierBasis {
  order : Z;
  min_vals : bound;
  max_vals : option bound;
  multipliers : list (list Z)
}.

(** [itertools.product(pool, repeat=n)]: the tuples in lexicographic order,
    the last position varying fastest. *)
Fixpoint product (pool : list Z) (n : nat) : list (list Z) :=
  match n with
  | O => [[]]
  | S n' => flat_map (fun a => map (cons a) (product pool n')) pool
  end.

(** [__init__]; [itertools.product] refuses a negative [repeat]. *)
Definition new (nvars : Z) (min_vals : bound) (max_vals : option bound)
    (order : Z) : outcome FourierBasis :=
  if (nvars <? 0)%Z then Raise ValueError
  else
    let terms := product (range (order + 1)) (Z.to_nat nvars) in
    Ok {| order := order;
          min_vals := min_vals;
          max_vals := max_vals;
          multipliers := tl terms |}.

(** The all-zero tuple, the one for the constant bias. *)
Definition zero_tuple (nvars : Z) : list Z := repeat 0%Z (Z.to_nat nvars).

Definition scale (values : mat) : M FourierBasis mat :=
  self <- get ;;
  let shifted := map (fun row => broadcast Rminus row (min_vals self)) values in
  match max_vals self with
  | None => ret shifted
  | Some max_vals =>
      ret (map (fun row =>
                  broadcast Rdiv row (bound_op Rminus max_vals (min_vals self)))
               shifted)
  end.

Definition compute_features (features : mat) : M FourierBasis mat :=
  scaled <- scale features ;;
  self <- get ;;
  ret (map (map (fun a => cos (PI * a)))
           (matmul_transpose_b scaled (map (map IZR) (multipliers self)))).

(** *** Vocabulary of the statements about the features *)

(** [values - min_vals] *)
Definition shifted (self : FourierBasis) (values : mat) : mat :=
  map (fun row => broadcast Rminus row (min_vals self)) values.



End Fourier.

(** ** The networks *)

Module Network.

Import PyList Tensor.
Open Scope R_scope.

Definition CARTPOLE_MIN_VALS : vec := [-2.4; -5; - PI / 12; - PI * 2].
Definition CARTPOLE_MAX_VALS : vec := [2.4; 5; PI / 12; PI * 2].
Definition ACROBOT_MIN_VALS : vec := [-1; -1; -1; -1; -5; -5].
Definition ACROBOT_MAX_VALS : vec := [1; 1; 1; 1; 5; 5].

(** A dense layer with its trained weights is some function on batches. *)
Definition layer : Type := mat -> mat.

Record BasicDiscreteDomainNetwork : Type := mkBasic {
  num_actions : Z;
  num_atoms : option Z;
  min_vals : vec;
  max_vals : vec;
  dense1 : layer;
  dense2 : layer;
  last_layer : layer
}.

(** [tf.keras.layers.Flatten]: every item of the batch becomes one row. *)
Definition flatten (state : list mat) : mat := map (@concat R) state.

(** Lines 115 to 119 of [call]: the input of [dense1]. *)
Definition normalized (self : BasicDiscreteDomainNetwork) (state : list mat)
  : mat :=
  let x := state in
  let x := flatten x in
  let x := map (fun row => map2 Rminus row (min_vals self)) x in
  let x := map (fun row =>
                  map2 Rdiv row (map2 Rminus (max_vals self) (min_vals self)))
               x in
  let x := map (map (fun a => 2.0 * a - 1.0)) x in
  x.

Definition call (self : BasicDiscreteDomainNetwork) (state : list mat) : mat :=
  let x := normalized self state in
  let x := dense1 self x in
  let x := dense2 self x in
  let x := last_layer self x in
  x.

(** The values the Rainbow heads handle: tensors of rank 1 to 3, integers,
    the class [tf.keras.layers.Softmax] and its instances (a layer object
    that remembers the [axis] it was built with). *)
Inductive value : Type :=
| Tensor1 (t : vec)
| Tensor2 (t : mat)
| Tensor3 (t : list mat)
| Int (n : Z)
| SoftmaxClass
| SoftmaxLayer (axis : value).

(** [f(arg)].  Calling the class builds a layer, [Softmax(axis=arg)];
    calling a layer built for the last axis applies the softmax. *)
Definition py_call (f arg : value) : outcome value :=
  match f with
  | SoftmaxClass => Ok (SoftmaxLayer arg)
  | SoftmaxLayer (Int axis) =>
      match arg with
      | Tensor3 t =>
          if (axis =? -1)%Z || (axis =? 2)%Z
          then Ok (Tensor3 (map (map softmax) t))
          else Raise ValueError
      | _ => Raise TypeError
      end
  | _ => Raise TypeError
  end.

(** [a * b] with [a] a vector: defined when [b] is a tensor, on whose last
    axis [a] is broadcast; a layer object is not convertible to a tensor. *)
Definition tf_multiply (a : vec) (b : value) : outcome value :=
  match b with
  | Tensor3 t => Ok (Tensor3 (map (map (map2 Rmult a)) t))
  | _ => Raise TypeError
  end.

(** [tf.reduce_sum(v, axis=2)] *)
Definition reduce_sum_axis2 (v : value) : outcome value :=
  match v with
  | Tensor3 t => Ok (Tensor2 (map (map sum) t))
  | _ => Raise TypeError
  end.

(** Rows of [n] consecutive entries of [l]. *)
Fixpoint chunks (n : nat) (k : nat) (l : vec) : mat :=
  match k with
  | O => []
  | S k' => firstn n l :: chunks n k' (skipn n l)
  end.

(** [tf.reshape(x, [-1, num_actions, num_atoms])] for [x] of shape
    [batch, num_actions * num_atoms]. *)
Definition reshape (x : mat) (num_actions num_atoms : Z) : outcome (list mat) :=
  if forallb (fun row => (Z.of_nat (length row) =? num_actions * num_atoms)%Z) x
     && (0 <=? num_actions)%Z && (0 <=? num_atoms)%Z
  then Ok (map (chunks (Z.to_nat num_atoms) (Z.to_nat num_actions)) x)
  else Raise ValueError.

Record RainbowNetworkType : Type := mkRainbowOut {
  q_values : value;
  logits : list mat;
  probabilities : value
}.

(** The attributes shared by [CartpoleRainbowNetwork] and
    [AcrobotRainbowNetwork]. *)
Record RainbowNetwork : Type := mkRainbow {
  net : BasicDiscreteDomainNetwork;
  softmax_attr : value;
  r_num_actions : Z;
  r_num_atoms : Z;
  support : vec
}.

Definition bind {A B} (o : outcome A) (k : A -> outcome B) : outcome B :=
  match o with
  | Ok a => k a
  | Raise e => Raise e
  end.

(** [__init__] of the two classes, given the layers of the trunk. *)
Definition CartpoleRainbowNetwork (d1 d2 d3 : layer)
    (num_actions num_atoms : Z) (support : vec) : RainbowNetwork :=
  {| net := mkBasic num_actions (Some num_atoms)
                    CARTPOLE_MIN_VALS CARTPOLE_MAX_VALS d1 d2 d3;
     softmax_attr := SoftmaxClass;
     r_num_actions := num_actions;
     r_num_atoms := num_atoms;
     support := support |}.

Definition AcrobotRainbowNetwork (d1 d2 d3 : layer)
    (num_actions num_atoms : Z) (support : vec) : RainbowNetwork :=
  {| net := mkBasic num_actions (Some num_atoms)
                    ACROBOT_MIN_VALS ACROBOT_MAX_VALS d1 d2 d3;
     softmax_attr := SoftmaxClass;
     r_num_actions := num_actions;
     r_num_atoms := num_atoms;
     support := support |}.

(** [CartpoleRainbowNetwork.call] *)
Definition CartpoleRainbowNetwork_call (self : RainbowNetwork)
    (state : list mat) : outcome RainbowNetworkType :=
  let x := call (net self) state in
  bind (reshape x (r_num_actions self) (r_num_atoms self)) (fun logits =>
  bind (py_call (softmax_attr self) (Tensor3 logits)) (fun probabilities =>
  bind (tf_multiply (support self) probabilities) (fun weighted =>
  bind (reduce_sum_axis2 weighted) (fun q_values =>
  Ok (mkRainbowOut q_values logits probabilities))))).

(** [AcrobotRainbowNetwork.call] *)
Definition AcrobotRainbowNetwork_call (self : RainbowNetwork)
    (state : list mat) : outcome RainbowNetworkType :=
  let x := call (net self) state in
  bind (reshape x (r_num_actions self) (r_num_atoms self)) (fun logits =>
  bind (py_call (softmax_attr self) (Tensor3 logits)) (fun probabilities =>
  bind (tf_multiply (support self) probabilities) (fun weighted =>
  bind (reduce_sum_axis2 weighted) (fun q_values =>
  Ok (mkRainbowOut q_values logits probabilities))))).

End Network.

(** ** Sequences of calls on the grid world *)

Module GridRuns.

Import PyMonad PyList GridWorld.
Open Scope Z_scope.

(** The attributes [__init__] sets, as opposed to the position. *)
Definition config (e : Env)
  : Z * Z * list (Z * (Z * Z)) * list Z * list Z * (Z * Z) * (Z * Z) * Q * Z
    * list Z :=
  (width e, height e, moves e, windy_columns e, windy_levels e,
   start_state e, goal_state e, random_action_prob e, door_y e, wall_xs e).

(** A method that leaves those attributes alone, however it ends. *)
Definition keeps_config {A} (c : M Env A) : Prop :=
  forall e : Env, config (snd (c e)) = config e.

(** [step] called with each action of a list in turn, the draws being the
    same every time; the outcomes are collected. *)
Fixpoint episode (actions : list Z) (rnd : Rand) (e : Env)
  : list (outcome ((Z * Z) * Z * bool)) * Env :=
  match actions with
  | [] => ([], e)
  | action :: rest =>
      let (r, e') := step action rnd e in
      let (rs, e'') := episode rest rnd e' in
      (r :: rs, e'')
  end.

End GridRuns.

(** ** Sequences of calls on [GymPreprocessing] *)

Module WrapperRuns.

Import PyMonad Wrapper.

Section Runs.

Context {E : Type} `{GymEnv E}.

(** A call made by the user of an environment, and what it gave. *)
Inductive request : Type :=
| DoReset
| DoStep (action : Action).

Inductive reply : Type :=
| ResetReply (r : outcome ResetResult)
| StepReply (r : outcome (Observation * Reward * bool * Info)).

(** The calls made on the wrapper, an exception being caught by the caller,
    who goes on. *)
Fixpoint run_wrapper (requests : list request) (self : GymPreprocessing E)
  : list reply * GymPreprocessing E :=
  match requests with
  | [] => ([], self)
  | DoReset :: rest =>
      let (r, self') := reset self in
      let (rs, self'') := run_wrapper rest self' in
      (ResetReply r :: rs, self'')
  | DoStep action :: rest =>
      let (r, self') := step action self in
      let (rs, self'') := run_wrapper rest self' in
      (StepReply r :: rs, self'')
  end.

(** The same calls made on the underlying environment itself. *)
Fixpoint run_environment (requests : list request) (e : E) : list reply * E :=
  match requests with
  | [] => ([], e)
  | DoReset :: rest =>
      let (r, e') := env_reset e in
      let (rs, e'') := run_environment rest e' in
      (ResetReply r :: rs, e'')
  | DoStep action :: rest =>
      let (r, e') := env_step action e in
      let (rs, e'') := run_environment rest e' in
      (StepReply r :: rs, e'')
  end.

(** The done flag of the last [step] that returned, [start] if none did. *)
Fixpoint last_done (replies : list reply) (start : bool) : bool :=
  match replies with
  | [] => start
  | StepReply (Ok (_, _, done, _)) :: rest => last_done rest done
  | _ :: rest => last_done rest start
  end.

(** What [gym.make] returns: the time-limit wrapper, whose [env] attribute
    is the environment proper. *)
Record TimeLimit : Type := mkTimeLimit {
  env : E;
  max_episode_steps : Z
}.

(** [create_gym_environment], given what [gym.make] does with a name. *)
Definition create_gym_environment
    (gym_make : String.string -> outcome TimeLimit)
    (environment_name : option String.string) (version : String.string)
  : outcome (GymPreprocessing E) :=
  match environment_name with
  | None => Raise AssertionError
  | Some environment_name =>
      let full_game_name :=
        String.append environment_name (String.append "-" version) in
      match gym_make full_game_name with
      | Raise e => Raise e
      | Ok env0 =>
          let env1 := env env0 in
          let env2 := new env1 in
          Ok env2
      end
  end.

End Runs.

Arguments TimeLimit E : clear implicits.

Local Open Scope string_scope.

(** A registry that knows one name, for the countdown of [Wrapper]. *)
Definition countdown_name : String.string := "CountDown".

Definition countdown_version : String.string := "v0".

Definition countdown_make (name : String.string)
  : outcome (TimeLimit Wrapper.Countdown.t) :=
  if String.eqb name "CountDown-v0"
  then Ok (mkTimeLimit 5%nat 200%Z)
  else Raise KeyError.

(** A reset and the three steps of the countdown. *)
Definition countdown_requests
  : list (@request Wrapper.Countdown.t Wrapper.Countdown.countdown_env) :=
  [@DoReset _ Wrapper.Countdown.countdown_env;
   @DoStep _ Wrapper.Countdown.countdown_env tt;
   @DoStep _ Wrapper.Countdown.countdown_env tt;
   @DoStep _ Wrapper.Countdown.countdown_env tt].

End WrapperRuns.

(** ** Floating-point numbers

    The tensors of the networks hold binary32 numbers and the bounds are
    numpy arrays of binary64 numbers.  Both are values of [spec_float], the
    IEEE 754 specification of the standard library, with the precision and
    the exponent range of the format passed to each operation. *)

Module Float.

Definition float : Type := SpecFloat.spec_float.

Definition add32 : float -> float -> float := SpecFloat.SFadd 24 128.
Definition sub32 : float -> float -> float := SpecFloat.SFsub 24 128.
Definition mul32 : float -> float -> float := SpecFloat.SFmul 24 128.
Definition div32 : float -> float -> float := SpecFloat.SFdiv 24 128.

Definition sub64 : float -> float -> float := SpecFloat.SFsub 53 1024.
Definition mul64 : float -> float -> float := SpecFloat.SFmul 53 1024.
Definition div64 : float -> float -> float := SpecFloat.SFdiv 53 1024.

(** The binary64 and the binary32 number nearest to an integer. *)
Definition of_Z64 (z : Z) : float := SpecFloat.binary_normalize 53 1024 z 0 false.
Definition of_Z32 (z : Z) : float := SpecFloat.binary_normalize 24 128 z 0 false.

(** A decimal literal of the source, [num / den] with [den] a power of
    ten: the binary64 number nearest to it. *)
Definition literal (num den : Z) : float := div64 (of_Z64 num) (of_Z64 den).

(** Conversion to binary32 ([tf.cast], and the conversion of a numpy array
    or a Python number that meets a binary32 tensor): round to nearest. *)
Definition to32 (x : float) : float :=
  match x with
  | SpecFloat.S754_finite s m e => SpecFloat.binary_round 24 128 s m e
  | _ => x
  end.


(** [math.pi] and [np.pi]: 0x1.921fb54442d18p+1. *)
Definition pi64 : float := SpecFloat.S754_finite false 7074237752028440 (-51).

Definition one32 : float := to32 (literal 10 10).
Definition two32 : float := to32 (literal 20 10).
Definition pi32 : float := to32 pi64.





End Float.

(** ** Tensors of binary32 numbers, with their static shape *)

Module FTensor.

Import Float.

(** A tensor of shape [(length rows, cols)]: every row has [cols] entries. *)
Record tensor2 : Type := mkTensor2 {
  rows : list (list float);
  cols : nat
}.

Definition well_shaped (t : tensor2) : bool :=
  forallb (fun r => Nat.eqb (length r) (cols t)) (rows t).

(** A tensor of shape [(length items, dim1, dim2)]. *)
Record tensor3 : Type := mkTensor3 {
  items : list (list (list float));
  dim1 : nat;
  dim2 : nat
}.

Definition well_shaped3 (t : tensor3) : bool :=
  forallb (fun item =>
             Nat.eqb (length item) (dim1 t)
             && forallb (fun r => Nat.eqb (length r) (dim2 t)) item)
          (items t).

(** [min_vals] and [max_vals]: a Python number or a numpy array of rank 1,
    of binary64 numbers. *)
Inductive array : Type :=
| Scalar (c : float)
| Vector (v : list float).

Definition array_to32 (a : array) : array :=
  match a with
  | Scalar c => Scalar (to32 c)
  | Vector v => Vector (map to32 v)
  end.

(** Entry by entry on two lists of one length. *)
Fixpoint zip (op : float -> float -> float) (l l' : list float) : list float :=
  match l, l' with
  | a :: t, b :: t' => op a b :: zip op t t'
  | _, _ => []
  end.

(** [a op b] in numpy for such operands: lengths must agree unless one of
    them is 1. *)
Definition array_op (op : float -> float -> float) (a b : array)
  : outcome array :=
  match a, b with
  | Scalar c, Scalar c' => Ok (Scalar (op c c'))
  | Scalar c, Vector v' => Ok (Vector (map (fun x => op c x) v'))
  | Vector v, Scalar c' => Ok (Vector (map (fun x => op x c') v))
  | Vector v, Vector v' =>
      if Nat.eqb (length v) (length v') then Ok (Vector (zip op v v'))
      else match v, v' with
           | [c], _ => Ok (Vector (map (fun x => op c x) v'))
           | _, [c'] => Ok (Vector (map (fun x => op x c') v))
           | _, _ => Raise ValueError
           end
  end.

(** [t op a] for a binary32 tensor [t] and an operand [a] already converted
    to binary32, with the broadcasting of TensorFlow on the last axis;
    incompatible widths raise ([ValueError] when the graph is built,
    [InvalidArgumentError] when run eagerly). *)
Definition broadcast (op : float -> float -> float) (t : tensor2) (a : array)
  : outcome tensor2 :=
  match a with
  | Scalar c =>
      Ok (mkTensor2 (map (map (fun x => op x c)) (rows t)) (cols t))
  | Vector v =>
      if Nat.eqb (length v) (cols t)
      then Ok (mkTensor2 (map (fun r => zip op r v) (rows t)) (cols t))
      else
        match v with
        | [c] => Ok (mkTensor2 (map (map (fun x => op x c)) (rows t)) (cols t))
        | _ =>
            if Nat.eqb (cols t) 1
            then Ok (mkTensor2
                       (map (fun r => map (fun y => op (hd y r) y) v) (rows t))
                       (length v))
            else Raise ValueError
        end
  end.

(** [tf.cast(state, tf.float32)] and [tf.keras.layers.Flatten]. *)
Definition cast32 (t : tensor3) : tensor3 :=
  mkTensor3 (map (map (map to32)) (items t)) (dim1 t) (dim2 t).

Definition flatten (t : tensor3) : tensor2 :=
  mkTensor2 (map (@concat float) (items t)) (dim1 t * dim2 t).

Definition bind {A B} (o : outcome A) (k : A -> outcome B) : outcome B :=
  match o with
  | Ok a => k a
  | Raise e => Raise e
  end.

End FTensor.

(** ** [BasicDiscreteDomainNetwork] on binary32 tensors *)

Module Network32.

Import Float FTensor.

Definition layer : Type := tensor2 -> tensor2.

Record BasicDiscreteDomainNetwork : Type := mkBasic {
  num_actions : Z;
  num_atoms : option Z;
  min_vals : array;
  max_vals : array;
  dense1 : layer;
  dense2 : layer;
  last_layer : layer
}.

(** Lines 115 to 119 of [call]: the input of [dense1].  The array
    [max_vals - min_vals] is computed by numpy in binary64 and meets the
    tensor as a binary32 array. *)
Definition normalized (self : BasicDiscreteDomainNetwork) (state : tensor3)
  : outcome tensor2 :=
  let x := cast32 state in
  let x := flatten x in
  bind (broadcast sub32 x (array_to32 (min_vals self))) (fun x =>
  bind (array_op sub64 (max_vals self) (min_vals self)) (fun d =>
  bind (broadcast div32 x (array_to32 d)) (fun x =>
  let x :=
    mkTensor2 (map (map (fun a => sub32 (mul32 two32 a) one32)) (rows x))
              (cols x) in
  Ok x))).

Definition call (self : BasicDiscreteDomainNetwork) (state : tensor3)
  : outcome tensor2 :=
  bind (normalized self state) (fun x =>
  let x := dense1 self x in
  let x := dense2 self x in
  let x := last_layer self x in
  Ok x).

(** The bounds of the two domains: numpy arrays of binary64 numbers. *)
Definition CARTPOLE_MIN_VALS : list float :=
  [SpecFloat.SFopp (literal 24 10); SpecFloat.SFopp (literal 50 10);
   div64 (SpecFloat.SFopp pi64) (literal 120 10);
   mul64 (SpecFloat.SFopp pi64) (literal 20 10)].

Definition CARTPOLE_MAX_VALS : list float :=
  [literal 24 10; literal 50 10;
   div64 pi64 (literal 120 10); mul64 pi64 (literal 20 10)].

Definition ACROBOT_MIN_VALS : list float :=
  [SpecFloat.SFopp (literal 10 10); SpecFloat.SFopp (literal 10 10);
   SpecFloat.SFopp (literal 10 10); SpecFloat.SFopp (literal 10 10);
   SpecFloat.SFopp (literal 50 10); SpecFloat.SFopp (literal 50 10)].

Definition ACROBOT_MAX_VALS : list float :=
  [literal 10 10; literal 10 10; literal 10 10; literal 10 10;
   literal 50 10; literal 50 10].



(** *** Vocabulary of the statements about the normalisation *)


(** A batch of [n] states of shape (width, 1), each holding the entries of
    [v], and the tensor of [n] rows of [width] entries [c]. *)
Definition batch_of (v : list float) (n : nat) : tensor3 :=
  mkTensor3 (repeat (map (fun c => [c]) v) n) (length v) 1.


End Network32.

(** ** [FourierBasis] and [FourierDQNNetwork] on binary32 tensors

    The two kernels of TensorFlow that the feature map calls are taken as
    given: the inner product that [tf.matmul] computes for one row and one
    column, and [tf.cos]. *)

Module Fourier32.

Import PyMonad PyList Float FTensor.
Open Scope py_scope.

Record FourierBasis : Type := mkFourierBasis {
  order : Z;
  min_vals : array;
  max_vals : option array;
  multipliers : list (list Z)
}.

(** [__init__], as in [Fourier.new]. *)
Definition new (nvars : Z) (min_vals : array) (max_vals : option array)
    (order : Z) : outcome FourierBasis :=
  if (nvars <? 0)%Z then Raise ValueError
  else
    let terms := Fourier.product (range (order + 1)) (Z.to_nat nvars) in
    Ok {| order := order;
          min_vals := min_vals;
          max_vals := max_vals;
          multipliers := tl terms |}.

Definition lift {S A} (o : outcome A) : M S A :=
  fun s => (o, s).

Definition scale (values : tensor2) : M FourierBasis tensor2 :=
  self <- get ;;
  shifted <- lift (broadcast sub32 values (array_to32 (min_vals self))) ;;
  match max_vals self with
  | None => ret shifted
  | Some max_vals =>
      d <- lift (array_op sub64 max_vals (min_vals self)) ;;
      lift (broadcast div32 shifted (array_to32 d))
  end.

Section Kernels.

Variable dot32 : list float -> list float -> float.
Variable cos32 : float -> float.

(** [tf.matmul(a, b, transpose_b=True)] for [b] the constant made of the
    multipliers: of rank 1 when the list is empty, which [tf.matmul]
    refuses, and of shape (rows, width) otherwise, the width having to be
    that of [a]. *)
Definition matmul_transpose_b (a : tensor2) (b : list (list float))
  : outcome tensor2 :=
  match b with
  | [] => Raise ValueError
  | b0 :: _ =>
      if Nat.eqb (length b0) (cols a)
      then Ok (mkTensor2 (map (fun r => map (fun c => dot32 r c) b) (rows a))
                         (length b))
      else Raise ValueError
  end.

Definition compute_features (features : tensor2) : M FourierBasis tensor2 :=
  scaled <- scale features ;;
  self <- get ;;
  product <- lift (matmul_transpose_b scaled
                     (map (map of_Z32) (multipliers self))) ;;
  ret (mkTensor2 (map (map (fun a => cos32 (mul32 pi32 a))) (rows product))
                 (cols product)).

(** *** [FourierDQNNetwork] *)

Record FourierDQNNetwork : Type := mkFourierNet {
  num_actions : Z;
  fourier_basis_order : Z;
  net_min_vals : array;
  net_max_vals : option array;
  last_layer : tensor2 -> tensor2;
  feature_generator : option FourierBasis
}.

(** [__init__]: the attribute [feature_generator] does not exist yet. *)
Definition new_network (min_vals : array) (max_vals : option array)
    (num_actions : Z) (fourier_basis_order : Z)
    (last_layer : tensor2 -> tensor2) : FourierDQNNetwork :=
  {| num_actions := num_actions;
     fourier_basis_order := fourier_basis_order;
     net_min_vals := min_vals;
     net_max_vals := max_vals;
     last_layer := last_layer;
     feature_generator := None |}.

Definition with_generator (self : FourierDQNNetwork) (fb : FourierBasis)
  : FourierDQNNetwork :=
  mkFourierNet (num_actions self) (fourier_basis_order self)
               (net_min_vals self) (net_max_vals self) (last_layer self)
               (Some fb).

(** A method call on [self.feature_generator]. *)
Definition on_feature_generator {A} (c : M FourierBasis A)
  : M FourierDQNNetwork A :=
  fun self =>
    match feature_generator self with
    | None => (Raise AttributeError, self)
    | Some fb => let (r, fb') := c fb in (r, with_generator self fb')
    end.

(** [call]: [x.get_shape().as_list()[-1]] is the static width of the
    flattened input. *)
Definition call (state : tensor3) : M FourierDQNNetwork tensor2 :=
  self <- get ;;
  let x := cast32 state in
  let x := flatten x in
  (match feature_generator self with
   | Some _ => ret tt
   | None =>
       fb <- lift (new (Z.of_nat (cols x)) (net_min_vals self)
                       (net_max_vals self) (fourier_basis_order self)) ;;
       put (with_generator self fb)
   end) ;;;
  x <- on_feature_generator (compute_features x) ;;
  self <- get ;;
  let x := last_layer self x in
  ret x.

(** *** Vocabulary of the statements about the features *)

(** The features of a scaled batch, for a multiplier matrix that is not
    empty and as wide as the batch. *)
Definition features_of (scaled : tensor2) (multipliers : list (list Z))
  : tensor2 :=
  mkTensor2
    (map (fun r =>
            map (fun m => cos32 (mul32 pi32 (dot32 r (map of_Z32 m))))
                multipliers)
         (rows scaled))
    (length multipliers).

End Kernels.

(** Two kernels to run the feature map on: products summed from left to
    right, and the first two terms of the cosine series. *)
Definition sequential_dot32 (r c : list float) : float :=
  fold_left add32 (zip mul32 r c) (SpecFloat.S754_zero false).

Definition coarse_cos32 (x : float) : float :=
  sub32 one32 (div32 (mul32 x x) two32).

(** The width of the rows of a multiplier matrix that is not empty. *)
Definition multipliers_width (multipliers : list (list Z)) : nat :=
  match multipliers with
  | [] => 0
  | m :: _ => length m
  end.

(** Every row as long as the first, as [tf.constant] requires. *)
Definition rectangular (multipliers : list (list Z)) : Prop :=
  Forall (fun m => length m = multipliers_width multipliers) multipliers.

End Fourier32.


(** * Properties of [DoubleRoomWindyGridWorldEnv] *)

Section GridWorldFacts.

Import PyMonad PyList GridWorld.
Open Scope Z_scope.
Open Scope py_scope.

Lemma clip_bounds (v lo hi : Z) : lo <= hi -> lo <= clip v lo hi <= hi.
Proof. unfold clip. lia. Qed.

Lemma clip_inside (v lo hi : Z) : lo <= v <= hi -> clip v lo hi = v.
Proof. unfold clip. lia. Qed.

Lemma contains_wall_xs (v : Z) :
  contains (wall_xs init) v = (0 <=? v) && (v <=? 13) && negb (v =? 3).
Proof.
  change (wall_xs init) with [0; 1; 2; 4; 5; 6; 7; 8; 9; 10; 11; 12; 13].
  unfold contains, existsb. lia.
Qed.

Lemma wind_of_init (col : Z) :
  wind_of init col =
  if col =? 1 then 1 else if (2 <=? col) && (col <=? 4) then 2 else 0.
Proof.
  unfold wind_of.
  change (windy_columns init) with [1; 2; 3; 4].
  change (windy_levels init) with [1; 2; 2; 2].
  unfold index. rewrite !(Z.eqb_sym _ col).
  destruct (col =? 1) eqn:E1; [reflexivity|].
  destruct (col =? 2) eqn:E2; [apply Z.eqb_eq in E2; subst; reflexivity|].
  destruct (col =? 3) eqn:E3; [apply Z.eqb_eq in E3; subst; reflexivity|].
  destruct (col =? 4) eqn:E4; [apply Z.eqb_eq in E4; subst; reflexivity|].
  cbn. destruct ((2 <=? col) && (col <=? 4)) eqn:E; [lia | reflexivity].
Qed.

(** The wind block of [step] subtracts the column's level from the row. *)
Lemma wind_block_at (vx vy : Z) :
  (if contains (windy_columns (at_pos vx vy)) vy then
     cy <- attr y ;;
     i <- lift ValueError (index (windy_columns (at_pos vx vy)) cy) ;;
     lvl <- lift IndexError (getitem (windy_levels (at_pos vx vy)) i) ;;
     cx <- attr x ;;
     write_x (cx - lvl)
   else ret tt) (at_pos vx vy)
  = (Ok tt, at_pos (vx - wind_of init vy) vy).
Proof.
  unfold wind_of.
  change (windy_columns (at_pos vx vy)) with [1; 2; 3; 4].
  change (windy_levels (at_pos vx vy)) with [1; 2; 2; 2].
  change (windy_columns init) with [1; 2; 3; 4].
  change (windy_levels init) with [1; 2; 2; 2].
  unfold contains, existsb.
  rewrite !(Z.eqb_sym vy).
  destruct (1 =? vy) eqn:E1;
    [| destruct (2 =? vy) eqn:E2;
       [| destruct (3 =? vy) eqn:E3; [| destruct (4 =? vy) eqn:E4]]];
    cbn [orb];
    try (unfold bind at 1;
         change (attr y (at_pos vx vy)) with (Ok vy, at_pos vx vy);
         cbv iota beta);
    unfold index; rewrite ?E1, ?E2, ?E3, ?E4; try reflexivity.
  cbn. unfold at_pos, set_y, set_x; cbn. now rewrite Z.sub_0_r.
Qed.

(** One call of [step] from a position, once the executed action has a move. *)
Lemma step_at (action : Z) (rnd : Rand) (vx vy dx dy : Z) :
  dict_get (moves init) (executed init action rnd) = Some (dx, dy) ->
  let nx := next_x vx vy dx in
  let ny := next_y nx vy dy in
  step action rnd (at_pos vx vy) =
  (if negb (contains (wall_xs init) nx && (ny =? 5))
   then Ok ((nx, ny), (if pair_eqb (nx, ny) (13, 10) then 1 else 0),
            pair_eqb (nx, ny) (13, 10))
   else Raise AssertionError, at_pos nx ny).
Proof.
  intros Hmv nx ny.
  unfold step, bind at 1. unfold get at 1.
  change (executed init action rnd) with
    (if Qltb (uniform rnd) (random_action_prob (at_pos vx vy))
     then choice rnd else action) in Hmv.
  change (moves init) with (moves (at_pos vx vy)) in Hmv.
  cbv zeta. rewrite Hmv.
  unfold lift at 1, bind at 1, ret at 1.
  unfold bind at 1.
  change (attr x (at_pos vx vy)) with (Ok vx, at_pos vx vy). cbv iota beta.
  unfold bind at 1.
  change (attr y (at_pos vx vy)) with (Ok vy, at_pos vx vy). cbv iota beta.
  unfold bind at 1.
  change (attr y (at_pos vx vy)) with (Ok vy, at_pos vx vy). cbv iota beta.
  unfold bind at 1.
  rewrite wind_block_at. cbv iota beta.
  set (wx := vx - wind_of init vy).
  unfold bind at 1.
  change (attr x (at_pos wx vy)) with (Ok wx, at_pos wx vy). cbv iota beta.
  unfold bind at 1.
  change (attr y (at_pos wx vy)) with (Ok vy, at_pos wx vy). cbv iota beta.
  change (door_y (at_pos vx vy)) with 5.
  change (height (at_pos vx vy) - 1) with 13.
  change (width (at_pos vx vy) - 1) with 10.
  change (wall_xs (at_pos vx vy)) with (wall_xs init).
  change (goal_state (at_pos vx vy)) with (13, 10).
  unfold bind at 1, write_x at 1.
  assert (Hx : clip (if vy =? 5 then wx else wx + dx) 0 13 = nx).
  { unfold nx, next_x. fold wx.
    destruct (vy =? 5); [now rewrite Z.add_0_r | reflexivity]. }
  rewrite Hx.
  change (set_x nx (at_pos wx vy)) with (at_pos nx vy).
  unfold bind at 1.
  change (attr x (at_pos nx vy)) with (Ok nx, at_pos nx vy). cbv iota beta.
  unfold bind at 1.
  change (attr y (at_pos nx vy)) with (Ok vy, at_pos nx vy). cbv iota beta.
  unfold bind at 1, write_y at 1.
  fold (next_y nx vy dy). fold ny.
  change (set_y ny (at_pos nx vy)) with (at_pos nx ny).
  unfold bind at 1.
  change (attr x (at_pos nx ny)) with (Ok nx, at_pos nx ny). cbv iota beta.
  unfold bind at 1.
  change (attr y (at_pos nx ny)) with (Ok ny, at_pos nx ny). cbv iota beta.
  unfold bind, assert.
  destruct (negb (contains (wall_xs init) nx && (ny =? 5))); reflexivity.
Qed.

(** An action outside the keys of [moves] raises before anything is written. *)
Lemma step_key_error (action : Z) (rnd : Rand) (vx vy : Z) :
  dict_get (moves init) (executed init action rnd) = None ->
  step action rnd (at_pos vx vy) = (Raise KeyError, at_pos vx vy).
Proof.
  intros Hmv.
  unfold step, bind at 1. unfold get at 1.
  change (executed init action rnd) with
    (if Qltb (uniform rnd) (random_action_prob (at_pos vx vy))
     then choice rnd else action) in Hmv.
  change (moves init) with (moves (at_pos vx vy)) in Hmv.
  cbv zeta. rewrite Hmv. reflexivity.
Qed.

Lemma executed_in_range (action : Z) (rnd : Rand) :
  0 <= action < 4 -> 0 <= choice rnd < 4 ->
  0 <= executed init action rnd < 4.
Proof.
  intros Ha Hc. unfold executed.
  destruct (Qltb (uniform rnd) (random_action_prob init)); assumption.
Qed.

Lemma moves_in_range (a : Z) :
  0 <= a < 4 ->
  exists dx dy, dict_get (moves init) a = Some (dx, dy)
                /\ -1 <= dx <= 1 /\ -1 <= dy <= 1.
Proof.
  intros Ha.
  assert (H : a = 0 \/ a = 1 \/ a = 2 \/ a = 3) by lia.
  destruct H as [-> | [-> | [-> | ->]]]; cbn; do 2 eexists;
    (split; [reflexivity | lia]).
Qed.

Lemma next_preserves (vx vy dx dy : Z) :
  0 <= vx <= 13 -> 0 <= vy <= 10 ->
  contains (wall_xs init) vx && (vy =? 5) = false ->
  -1 <= dx <= 1 -> -1 <= dy <= 1 ->
  let nx := next_x vx vy dx in
  let ny := next_y nx vy dy in
  0 <= nx <= 13 /\ 0 <= ny <= 10
  /\ contains (wall_xs init) nx && (ny =? 5) = false.
Proof.
  intros Hx Hy Hw Hdx Hdy nx ny.
  assert (Hnx : 0 <= nx <= 13) by (apply clip_bounds; lia).
  assert (Hny : 0 <= ny <= 10) by (apply clip_bounds; lia).
  repeat split; try lia.
  rewrite contains_wall_xs in *.
  destruct (ny =? 5) eqn:E5; [| now rewrite andb_false_r].
  apply Z.eqb_eq in E5. rewrite andb_true_r.
  (* the door column is entered, or kept, in row 3 only *)
  assert (Hnx3 : nx = 3); [| rewrite Hnx3; reflexivity].
  revert E5. unfold ny, next_y. rewrite contains_wall_xs.
  destruct (vy + dy =? 5) eqn:Ed.
  - destruct (nx =? 3) eqn:E3; [lia|].
    replace ((0 <=? nx) && (nx <=? 13) && negb false) with true by lia.
    intros Hc. rewrite clip_inside in Hc by lia. subst vy.
    (* the column already was the door column: the row has not moved *)
    assert (Hvx : vx = 3) by lia.
    subst vx. unfold nx, next_x in E3. rewrite wind_of_init in E3.
    cbn in E3. discriminate.
  - intros Hc. unfold clip in Hc. lia.
Qed.

Lemma inv_reset (e : Env) : e = init \/ inv e -> inv (snd (reset e)).
Proof.
  intros [-> | (vx & vy & -> & _)];
    exists 13, 0; (split; [reflexivity | split; [lia | split; [lia | reflexivity]]]).
Qed.

Lemma inv_step (e : Env) (action : Z) (rnd : Rand) :
  inv e -> 0 <= action < 4 -> 0 <= choice rnd < 4 ->
  inv (snd (step action rnd e))
  /\ exists r, fst (step action rnd e) = Ok r.
Proof.
  intros (vx & vy & -> & Hx & Hy & Hw) Ha Hc.
  destruct (moves_in_range _ (executed_in_range action rnd Ha Hc))
    as (dx & dy & Hmv & Hdx & Hdy).
  rewrite (step_at action rnd vx vy dx dy Hmv). cbv zeta.
  destruct (next_preserves vx vy dx dy Hx Hy Hw Hdx Hdy) as (Hnx & Hny & Hnw).
  rewrite Hnw. cbn [negb fst snd]. split.
  - eexists _, _. split; [reflexivity|]. repeat split; try lia. exact Hnw.
  - eexists. reflexivity.
Qed.

Lemma reachable_inv (e : Env) : reachable e -> inv e.
Proof.
  induction 1 as [| e action rnd _ IH Ha Hc | e _ IH].
  - apply inv_reset. now left.
  - now apply inv_step.
  - apply inv_reset. now right.
Qed.

End GridWorldFacts.

(** * The claims about [DoubleRoomWindyGridWorldEnv] *)

Section GridWorldClaims.

Import PyMonad PyList GridWorld.
Open Scope Z_scope.

(** C2.  In every state reachable from [reset()] by calls of [step] with an
    action index 0..3, whatever the draws, the position is defined, lies in
    [0, height-1] x [0, width-1] and is not a wall cell (a row of [wall_xs]
    at column [door_y]); and a further call of [step] returns: neither the
    assertion nor anything else in it raises. *)
Theorem gridworld_position_invariant (e : Env) :
  reachable e ->
  (exists vx vy,
      x e = Some vx /\ y e = Some vy
      /\ 0 <= vx <= height e - 1 /\ 0 <= vy <= width e - 1
      /\ ~ (contains (wall_xs e) vx = true /\ vy = door_y e))
  /\ (forall action rnd,
        0 <= action < 4 -> 0 <= choice rnd < 4 ->
        exists r, fst (step action rnd e) = Ok r).
Proof.
  intros Hr. pose proof (reachable_inv e Hr) as Hi. split.
  - destruct Hi as (vx & vy & -> & Hx & Hy & Hw).
    exists vx, vy. repeat split; try (cbn; lia).
    intros [Hc Hd].
    change (wall_xs (at_pos vx vy)) with (wall_xs init) in Hc.
    change (door_y (at_pos vx vy)) with 5 in Hd.
    rewrite Hc in Hw. subst vy. discriminate.
  - intros action rnd Ha Hc. now apply inv_step.
Qed.

Lemma gridworld_position_invariant_witness :
  reachable (snd (step 1 (mkRand (1 # 2) 0) (snd (reset init))))
  /\ ((exists vx vy,
         x (snd (step 1 (mkRand (1 # 2) 0) (snd (reset init)))) = Some vx
         /\ y (snd (step 1 (mkRand (1 # 2) 0) (snd (reset init)))) = Some vy
         /\ 0 <= vx <= 13 /\ 0 <= vy <= 10
         /\ ~ (contains (wall_xs init) vx = true /\ vy = 5))
      /\ (forall action rnd,
            0 <= action < 4 -> 0 <= choice rnd < 4 ->
            exists r,
              fst (step action rnd
                     (snd (step 1 (mkRand (1 # 2) 0) (snd (reset init)))))
              = Ok r)).
Proof.
  assert (Hr : reachable (snd (step 1 (mkRand (1 # 2) 0) (snd (reset init))))).
  { apply reach_step; [apply reach_reset | lia | cbn; lia]. }
  split; [exact Hr |].
  exact (gridworld_position_invariant _ Hr).
Defined.

(** C3.  The transition of [step] for the executed action with move
    [(dx, dy)], from row [vx] and column [vy]: the row is first decreased by
    the wind level of the column (nothing when the column is not windy);
    the row delta is added unless the column is the door column; the row is
    clamped to the grid; the column is kept when the move would enter the
    door column and the row just computed is a wall row, and the column
    delta is applied otherwise; the column is clamped to the grid.  At the
    door column the row stays as it is.  The clamped row is a wall row
    exactly when the row before clamping is not row 3, the open one: it
    makes no difference to the wall test that the row is clamped first. *)
Theorem gridworld_step_transition
    (action : Z) (rnd : Rand) (vx vy dx dy : Z) :
  dict_get (moves init) (executed init action rnd) = Some (dx, dy) ->
  let self := at_pos vx vy in
  let blown := vx - wind_of self vy in
  let row := if vy =? door_y self then blown else blown + dx in
  let new_x := clip row 0 (height self - 1) in
  let col :=
    if (vy + dy =? door_y self) && contains (wall_xs self) new_x
    then vy else vy + dy in
  let new_y := clip col 0 (width self - 1) in
  snd (step action rnd self) = at_pos new_x new_y
  /\ (contains (windy_columns self) vy = false -> blown = vx)
  /\ (vy = door_y self -> row = vx)
  /\ contains (wall_xs self) new_x = negb (row =? 3).
Proof.
  intros Hmv. cbv zeta.
  rewrite (step_at action rnd vx vy dx dy Hmv). cbv zeta. cbn [snd].
  change (wind_of (at_pos vx vy)) with (wind_of init).
  change (door_y (at_pos vx vy)) with 5.
  change (height (at_pos vx vy) - 1) with 13.
  change (width (at_pos vx vy) - 1) with 10.
  change (wall_xs (at_pos vx vy)) with (wall_xs init).
  change (windy_columns (at_pos vx vy)) with [1; 2; 3; 4].
  split; [| split; [| split]].
  - unfold next_y, next_x.
    assert (Hrow : vx - wind_of init vy + (if vy =? 5 then 0 else dx)
                   = if vy =? 5 then vx - wind_of init vy
                     else vx - wind_of init vy + dx)
      by (destruct (vy =? 5); lia).
    rewrite Hrow.
    destruct (vy + dy =? 5) eqn:Ed; cbn [andb]; [| reflexivity].
    apply Z.eqb_eq in Ed.
    destruct (contains (wall_xs init) _); [reflexivity | now rewrite Ed].
  - intros Hw. rewrite wind_of_init. unfold contains, existsb in Hw.
    destruct (vy =? 1) eqn:E1; [lia|].
    destruct ((2 <=? vy) && (vy <=? 4)) eqn:E2; lia.
  - intros ->. rewrite wind_of_init. cbn. lia.
  - rewrite contains_wall_xs. unfold clip. lia.
Qed.

Lemma gridworld_step_transition_witness :
  dict_get (moves init) (executed init 1 (mkRand (1 # 2) 0)) = Some (0, 1)
  /\ snd (step 1 (mkRand (1 # 2) 0) (at_pos 5 4)) = at_pos 3 5.
Proof.
  split; [reflexivity |].
  exact (proj1 (gridworld_step_transition 1 (mkRand (1 # 2) 0) 5 4 0 1
                  eq_refl)).
Defined.

(** C4.  Whenever [step] returns, it returns the position it has written,
    with reward 1 and done [True] when that position is the goal cell
    [(height-1, width-1)], and with reward 0 and done [False] when it is
    not. *)
Theorem gridworld_step_reward_done
    (action : Z) (rnd : Rand) (vx vy : Z)
    (pos : Z * Z) (reward : Z) (done : bool) (e' : Env) :
  step action rnd (at_pos vx vy) = (Ok (pos, reward, done), e') ->
  x e' = Some (fst pos) /\ y e' = Some (snd pos)
  /\ (pos = (height e' - 1, width e' - 1) -> reward = 1 /\ done = true)
  /\ (pos <> (height e' - 1, width e' - 1) -> reward = 0 /\ done = false).
Proof.
  intros Hs.
  destruct (dict_get (moves init) (executed init action rnd))
    as [[dx dy] |] eqn:Hmv.
  - rewrite (step_at action rnd vx vy dx dy Hmv) in Hs. cbv zeta in Hs.
    destruct (negb _) in Hs; [| discriminate].
    injection Hs as <- <- <- <-.
    set (nx := next_x vx vy dx). set (ny := next_y nx vy dy).
    change (height (at_pos nx ny) - 1) with 13.
    change (width (at_pos nx ny) - 1) with 10.
    split; [reflexivity | split; [reflexivity |]].
    unfold pair_eqb. cbn [fst snd].
    split.
    + intros [= -> ->]. split; reflexivity.
    + intros Hne.
      destruct ((nx =? 13) && (ny =? 10)) eqn:E; [| split; reflexivity].
      exfalso. apply Hne. f_equal; lia.
  - rewrite (step_key_error action rnd vx vy Hmv) in Hs. discriminate.
Qed.

Lemma gridworld_step_reward_done_witness :
  step 1 (mkRand (1 # 2) 0) (at_pos 13 9) = (Ok ((13, 10), 1, true), at_pos 13 10)
  /\ (((13, 10) = (13, 10) -> 1 = 1 /\ true = true)
      /\ ((13, 10) <> (13, 10) -> 1 = 0 /\ true = false)).
Proof.
  split; [reflexivity |].
  exact (proj2 (proj2 (gridworld_step_reward_done 1 (mkRand (1 # 2) 0) 13 9
                         (13, 10) 1 true (at_pos 13 10) eq_refl))).
Defined.

(** C5.  [reset()] writes the start cell into the position and returns the
    start cell, reward 0 and done [False], on a fresh object and at every
    position; the start cell is [(height-1, 0)]. *)
Theorem gridworld_reset_start_cell :
  (forall e : Env,
      reset e = (Ok (start_state e, 0, false),
                 set_y (snd (start_state e)) (set_x (fst (start_state e)) e)))
  /\ start_state init = (height init - 1, 0)
  /\ reset init = (Ok ((height init - 1, 0), 0, false), at_pos (height init - 1) 0)
  /\ (forall vx vy : Z,
        reset (at_pos vx vy)
        = (Ok ((height init - 1, 0), 0, false), at_pos (height init - 1) 0)).
Proof.
  repeat split; reflexivity.
Qed.

End GridWorldClaims.

(** * The claims about [GymPreprocessing] *)

Section WrapperClaims.

Import PyMonad Wrapper.

Context {E : Type} `{GymEnv E}.

Lemma reset_game_over (self : GymPreprocessing E) :
  game_over (snd (reset self)) = game_over self.
Proof.
  unfold reset, on_environment.
  destruct (env_reset (environment self)) as [r e']. reflexivity.
Qed.

Lemma resets_game_over (n : nat) (self : GymPreprocessing E) :
  game_over (resets n self) = game_over self.
Proof.
  revert self. induction n as [| n IH]; intros self; cbn [resets].
  - reflexivity.
  - rewrite IH. apply reset_game_over.
Qed.

Lemma step_game_over (action : Action) (self self' : GymPreprocessing E)
    (observation : Observation) (reward : Reward) (done : bool) (info : Info) :
  step action self = (Ok (observation, reward, done, info), self') ->
  game_over self' = done.
Proof.
  unfold step, bind, on_environment.
  destruct (env_step action (environment self)) as [[[[[o r] d] i] | ex] e'];
    cbn; intros Hs; [| discriminate].
  now injection Hs as <- <- <- <- <-.
Qed.

(** C9.  The four properties are those of the underlying environment;
    [reset()] returns what the underlying [reset()] returns (or raises what
    it raises) and touches nothing but the underlying environment;
    [step(action)] returns the underlying tuple and has then set
    [game_over] to its done flag; when the underlying [step] raises, so does
    the wrapper's, and [game_over] is as before. *)
Theorem wrapper_forwards (self : GymPreprocessing E) :
  observation_space self = env_observation_space (environment self)
  /\ action_space self = env_action_space (environment self)
  /\ reward_range self = env_reward_range (environment self)
  /\ metadata self = env_metadata (environment self)
  /\ reset self
     = (fst (env_reset (environment self)),
        {| environment := snd (env_reset (environment self));
           game_over := game_over self |})
  /\ (forall action : Action,
        step action self
        = match env_step action (environment self) with
          | (Ok (observation, reward, done, info), e') =>
              (Ok (observation, reward, done, info),
               {| environment := e'; game_over := done |})
          | (Raise ex, e') =>
              (Raise ex, {| environment := e'; game_over := game_over self |})
          end).
Proof.
  repeat split.
  - unfold reset, on_environment.
    destruct (env_reset (environment self)); reflexivity.
  - intros action. unfold step, bind, on_environment.
    destruct (env_step action (environment self))
      as [[[[[o r] d] i] | ex] e']; reflexivity.
Qed.

(** C10.  [reset()] leaves [game_over] as it is, and so does any number of
    [reset()] calls in a row; the constructor sets it to [False]; hence
    after a [step] that returned done [True], [game_over] is [True] after
    any number of [reset()] calls. *)
Theorem wrapper_reset_keeps_game_over :
  (forall self : GymPreprocessing E,
      game_over (snd (reset self)) = game_over self)
  /\ (forall (n : nat) (self : GymPreprocessing E),
        game_over (resets n self) = game_over self)
  /\ (forall environment : E, game_over (new environment) = false)
  /\ (forall (action : Action) (self self' : GymPreprocessing E)
             (observation : Observation) (reward : Reward) (info : Info),
        step action self = (Ok (observation, reward, true, info), self') ->
        forall n : nat, game_over (resets n self') = true).
Proof.
  split; [exact reset_game_over |].
  split; [intros n self; apply resets_game_over |].
  split; [reflexivity |].
  intros action self self' o r i Hs n.
  rewrite resets_game_over. exact (step_game_over _ _ _ _ _ _ _ Hs).
Qed.

End WrapperClaims.

(** The countdown from 1: its only step ends the episode, and the flag
    survives five resets, each of which restarts the countdown. *)
Lemma wrapper_reset_keeps_game_over_witness :
  @Wrapper.step _ Wrapper.Countdown.countdown_env tt (Wrapper.new 1%nat)
  = (Ok (0%nat, 1%Z, true, tt), Wrapper.mkWrapper 0%nat true)
  /\ Wrapper.game_over
       (@Wrapper.resets _ Wrapper.Countdown.countdown_env 5
          (Wrapper.mkWrapper 0%nat true)) = true
  /\ Wrapper.environment
       (@Wrapper.resets _ Wrapper.Countdown.countdown_env 5
          (Wrapper.mkWrapper 0%nat true)) = 3%nat.
Proof.
  split; [reflexivity |].
  split; [| reflexivity].
  exact (proj2 (proj2 (proj2
           (@wrapper_reset_keeps_game_over _ Wrapper.Countdown.countdown_env)))
           tt (Wrapper.new 1%nat) _ _ _ _ eq_refl 5%nat).
Defined.

(** * The multiplier matrix of [FourierBasis] *)

Section ProductFacts.

Import PyList Fourier.

Lemma product_length (pool : list Z) (n : nat) :
  length (product pool n) = (length pool ^ n)%nat.
Proof.
  induction n as [| n IH]; [reflexivity |].
  cbn [product Nat.pow].
  rewrite <- IH. clear IH. generalize (product pool n). intros tuples.
  induction pool as [| a pool IHp]; [reflexivity |].
  cbn [flat_map length]. rewrite length_app, length_map, IHp. lia.
Qed.

Lemma product_In (pool : list Z) (n : nat) (v : list Z) :
  In v (product pool n) <-> length v = n /\ Forall (fun c => In c pool) v.
Proof.
  revert v. induction n as [| n IH]; intros v; cbn [product].
  - split.
    + intros [<- | []]. split; [reflexivity | constructor].
    + intros [Hl _]. left. destruct v; [reflexivity | discriminate].
  - rewrite in_flat_map. split.
    + intros (a & Ha & Hv). apply in_map_iff in Hv as (w & <- & Hw).
      apply IH in Hw as [Hl Hf]. split; [cbn; now rewrite Hl |].
      now constructor.
    + intros [Hl Hf]. destruct v as [| a w]; [discriminate |].
      inversion Hf as [| ? ? Ha Hw]; subst.
      exists a. split; [exact Ha |].
      apply in_map. apply IH. split; [now injection Hl | exact Hw].
Qed.

Lemma NoDup_map_cons (a : Z) (l : list (list Z)) :
  NoDup l -> NoDup (map (cons a) l).
Proof.
  induction 1 as [| w l Hw _ IH]; cbn; constructor; [| exact IH].
  intros Hin. apply in_map_iff in Hin as (w' & [= <-] & Hw'). contradiction.
Qed.

Lemma product_NoDup (pool : list Z) (n : nat) :
  NoDup pool -> NoDup (product pool n).
Proof.
  intros Hp. induction n as [| n IH]; cbn [product].
  - constructor; [intros [] | constructor].
  - generalize (product pool n), IH. intros tuples Ht. clear IH.
    induction Hp as [| a pool Ha _ IHp]; cbn [flat_map]; [constructor |].
    apply NoDup_app; [now apply NoDup_map_cons | exact IHp |].
    intros v Hv Hv'.
    apply in_map_iff in Hv as (w & <- & _).
    apply in_flat_map in Hv' as (b & Hb & Hv').
    apply in_map_iff in Hv' as (w' & [= -> _] & _). contradiction.
Qed.

(** The first tuple repeats the first element of the pool. *)
Lemma product_first (a : Z) (pool : list Z) (n : nat) :
  product (a :: pool) n = repeat a n :: tl (product (a :: pool) n).
Proof.
  induction n as [| n IH]; [reflexivity |].
  cbn [product flat_map].
  destruct (product (a :: pool) n) as [| first rest]; [discriminate IH |].
  injection IH as ->. reflexivity.
Qed.

Lemma range_In (n c : Z) : In c (range n) <-> (0 <= c < n)%Z.
Proof.
  unfold range. rewrite in_map_iff. split.
  - intros (k & <- & Hk). apply in_seq in Hk. lia.
  - intros Hc. exists (Z.to_nat c). split; [lia |]. apply in_seq. lia.
Qed.

Lemma range_NoDup (n : Z) : NoDup (range n).
Proof.
  unfold range. generalize (seq_NoDup (Z.to_nat n) 0).
  generalize (seq 0 (Z.to_nat n)). intros l.
  induction 1 as [| k l Hk _ IH]; cbn; constructor; [| exact IH].
  intros Hin. apply in_map_iff in Hin as (k' & Heq & Hk').
  apply Nat2Z.inj in Heq. now subst.
Qed.

Lemma range_length (n : Z) : length (range n) = Z.to_nat n.
Proof. unfold range. now rewrite length_map, length_seq. Qed.

Lemma range_first (n : Z) : (0 < n)%Z -> exists pool, range n = 0%Z :: pool.
Proof.
  intros Hn. unfold range.
  destruct (Z.to_nat n) as [| k] eqn:E; [lia |].
  cbn. eexists. reflexivity.
Qed.

End ProductFacts.

Section FourierClaims.

Import PyList Fourier.
Open Scope Z_scope.

(** C6.  For [order >= 0] and [nvars >= 0] the constructor succeeds and its
    multiplier matrix has [(order+1)^nvars - 1] rows, no row twice, and as
    rows exactly the vectors of [{0..order}^nvars] other than the all-zero
    vector. *)
Theorem fourier_multipliers_rows
    (nvars order : Z) (min_vals : Tensor.bound) (max_vals : option Tensor.bound) :
  0 <= order -> 0 <= nvars ->
  exists self,
    new nvars min_vals max_vals order = Ok self
    /\ Z.of_nat (length (multipliers self)) = (order + 1) ^ nvars - 1
    /\ NoDup (multipliers self)
    /\ (forall v : list Z,
          In v (multipliers self) <->
          length v = Z.to_nat nvars
          /\ Forall (fun c => 0 <= c <= order) v
          /\ v <> zero_tuple nvars)
    /\ ~ In (zero_tuple nvars) (multipliers self).
Proof.
  intros Ho Hn. unfold new.
  destruct (nvars <? 0) eqn:E; [lia |].
  eexists. split; [reflexivity |]. cbn [multipliers].
  destruct (range_first (order + 1)) as [pool Hpool]; [lia |].
  pose proof (product_first 0 pool (Z.to_nat nvars)) as Hfirst.
  pose proof (product_length (range (order + 1)) (Z.to_nat nvars)) as Hlen.
  pose proof (product_NoDup (range (order + 1)) (Z.to_nat nvars)
                (range_NoDup _)) as Hnd.
  pose proof (product_In (range (order + 1)) (Z.to_nat nvars)) as Hin.
  rewrite <- Hpool in Hfirst. clear pool Hpool.
  fold (zero_tuple nvars) in Hfirst.
  set (rows := tl (product (range (order + 1)) (Z.to_nat nvars))) in *.
  rewrite Hfirst in Hlen, Hnd, Hin.
  apply NoDup_cons_iff in Hnd as [Hzero Hrows].
  assert (Hmem : forall v, In v rows <->
                   length v = Z.to_nat nvars
                   /\ Forall (fun c => 0 <= c <= order) v
                   /\ v <> zero_tuple nvars).
  { intros v. split.
    - intros Hv.
      destruct (proj1 (Hin v) (or_intror Hv)) as [Hl Hf].
      split; [exact Hl |]. split.
      + eapply Forall_impl; [| exact Hf].
        intros c Hc. apply range_In in Hc. cbv beta. lia.
      + intros ->. contradiction.
    - intros (Hl & Hf & Hne).
      destruct (proj2 (Hin v)) as [Heq | Hv]; [| congruence | exact Hv].
      split; [exact Hl |].
      eapply Forall_impl; [| exact Hf].
      intros c Hc. cbv beta in Hc. apply range_In. lia. }
  split; [| split; [exact Hrows | split; [exact Hmem | exact Hzero]]].
  cbn [length] in Hlen. rewrite range_length in Hlen.
  assert (Hz : Z.of_nat (S (length rows)) = (order + 1) ^ nvars).
  { rewrite Hlen, Nat2Z.inj_pow, !Z2Nat.id by lia. reflexivity. }
  lia.
Qed.

Lemma fourier_multipliers_rows_witness :
  exists self,
    new 2 (Tensor.Scalar 0%R) None 3 = Ok self
    /\ Z.of_nat (length (multipliers self)) = (3 + 1) ^ 2 - 1
    /\ NoDup (multipliers self)
    /\ (forall v : list Z,
          In v (multipliers self) <->
          length v = Z.to_nat 2
          /\ Forall (fun c => 0 <= c <= 3) v
          /\ v <> zero_tuple 2)
    /\ ~ In (zero_tuple 2) (multipliers self).
Proof.
  apply (fourier_multipliers_rows 2 3 (Tensor.Scalar 0%R) None); lia.
Defined.

End FourierClaims.

(** * The feature map of [FourierBasis] *)

Section FourierFeatureClaims.

Import PyMonad Tensor Fourier.
Open Scope R_scope.



End FourierFeatureClaims.

(** * The networks *)

Section NetworkClaims.

Import Tensor Network.
Open Scope R_scope.

(** *** The Rainbow heads *)

Lemma sum_map_div (f : R -> R) (total : R) (v : vec) :
  sum (map (fun a => f a / total) v) = sum (map f v) / total.
Proof.
  unfold sum. induction v as [| a v IH]; cbn [map fold_right].
  - now rewrite Rdiv_0_l.
  - rewrite IH. now rewrite Rdiv_plus_distr.
Qed.

Lemma sum_exp_pos (v : vec) : v <> [] -> 0 < sum (map exp v).
Proof.
  intros Hv. destruct v as [| a v]; [contradiction |]. clear Hv.
  unfold sum. cbn [map fold_right].
  assert (Hrest : 0 <= fold_right Rplus 0 (map exp v)).
  { induction v as [| b v IH]; cbn [map fold_right]; [lra |].
    pose proof (exp_pos b). lra. }
  pose proof (exp_pos a). lra.
Qed.

(** What the softmax is for: a non-empty row of probabilities sums to 1. *)
Lemma softmax_sums_to_one (v : vec) : v <> [] -> sum (softmax v) = 1.
Proof.
  intros Hv. unfold softmax. rewrite sum_map_div.
  apply Rdiv_diag. pose proof (sum_exp_pos v Hv). lra.
Qed.

Lemma chunks_lengths (n k : nat) (l : vec) :
  length l = (k * n)%nat ->
  length (chunks n k l) = k /\ Forall (fun c => length c = n) (chunks n k l).
Proof.
  revert l. induction k as [| k IH]; intros l Hl; cbn [chunks].
  - split; [reflexivity | constructor].
  - destruct (IH (skipn n l)) as [Hk Hc]; [rewrite length_skipn; lia |].
    split; [cbn; now rewrite Hk |].
    constructor; [rewrite length_firstn; lia | exact Hc].
Qed.

(** A layer object built for the last axis, in the place of the class, makes
    [call] return the softmax of the logits: over the atoms of every action
    the probabilities sum to 1, and the Q-values are the sums over the atoms
    of support times probability. *)
Lemma rainbow_call_with_layer_instance
    (self : RainbowNetwork) (state : list mat) (logits : list mat) :
  softmax_attr self = SoftmaxLayer (Int (-1)) ->
  reshape (call (net self) state) (r_num_actions self) (r_num_atoms self)
  = Ok logits ->
  let probs := map (map softmax) logits in
  CartpoleRainbowNetwork_call self state
  = Ok {| q_values :=
            Tensor2 (map (map (fun p => sum (map2 Rmult (support self) p)))
                         probs);
          logits := logits;
          probabilities := Tensor3 probs |}
  /\ AcrobotRainbowNetwork_call self state
     = CartpoleRainbowNetwork_call self state
  /\ ((0 < r_num_atoms self)%Z ->
      Forall (Forall (fun p => sum p = 1)) probs).
Proof.
  intros Hattr Hshape probs.
  unfold AcrobotRainbowNetwork_call, CartpoleRainbowNetwork_call.
  rewrite Hshape, Hattr. cbn [bind py_call Z.eqb orb tf_multiply reduce_sum_axis2].
  split; [| split; [reflexivity |]].
  - change ((1 =? 1)%positive) with true.
    cbn [orb bind tf_multiply reduce_sum_axis2].
    fold probs. rewrite !map_map.
    apply (f_equal (fun q => Ok (mkRainbowOut (Tensor2 q) logits (Tensor3 probs)))).
    apply map_ext. intros item. now rewrite !map_map.
  - intros Hatoms. unfold reshape in Hshape.
    destruct (forallb _ _ && _ && _) eqn:Hcheck; [| discriminate].
    injection Hshape as <-.
    apply andb_prop in Hcheck as [Hcheck Hat].
    apply andb_prop in Hcheck as [Hrows Hac].
    rewrite forallb_forall in Hrows.
    unfold probs. rewrite map_map.
    apply Forall_forall. intros item Hitem.
    apply in_map_iff in Hitem as (row & <- & Hrow).
    apply Forall_map.
    destruct (chunks_lengths (Z.to_nat (r_num_atoms self))
                (Z.to_nat (r_num_actions self)) row) as [_ Hlens].
    { specialize (Hrows row Hrow). nia. }
    eapply Forall_impl; [| exact Hlens].
    intros c Hc. apply softmax_sums_to_one.
    intros ->. cbn in Hc. lia.
Qed.

(** C1.  Both [call]s raise on every input: [self.softmax] holds the class
    [tf.keras.layers.Softmax], so that [self.softmax(logits)] builds a layer
    object with the logits as its [axis] argument, and the product of the
    support with that object is a type error (or the reshape before it has
    failed).  No probabilities and no Q-values are returned. *)
Theorem rainbow_call_raises
    (d1 d2 d3 : layer) (num_actions num_atoms : Z) (support : vec)
    (state : list mat) :
  (exists e,
      CartpoleRainbowNetwork_call
        (CartpoleRainbowNetwork d1 d2 d3 num_actions num_atoms support) state
      = Raise e)
  /\ (exists e,
        AcrobotRainbowNetwork_call
          (AcrobotRainbowNetwork d1 d2 d3 num_actions num_atoms support) state
        = Raise e)
  /\ (forall (self : RainbowNetwork) (logits : list mat),
        softmax_attr self = SoftmaxClass ->
        reshape (call (net self) state) (r_num_actions self) (r_num_atoms self)
        = Ok logits ->
        py_call (softmax_attr self) (Tensor3 logits)
        = Ok (SoftmaxLayer (Tensor3 logits))
        /\ CartpoleRainbowNetwork_call self state = Raise TypeError
        /\ AcrobotRainbowNetwork_call self state = Raise TypeError).
Proof.
  split; [| split].
  - unfold CartpoleRainbowNetwork_call.
    destruct (reshape _ _ _) as [logits | e]; cbn; eexists; reflexivity.
  - unfold AcrobotRainbowNetwork_call.
    destruct (reshape _ _ _) as [logits | e]; cbn; eexists; reflexivity.
  - intros self logits Hattr Hshape.
    unfold CartpoleRainbowNetwork_call, AcrobotRainbowNetwork_call.
    rewrite Hshape, Hattr. cbn. repeat split; reflexivity.
Qed.

(** One item of two actions and two atoms, the trunk made of identities. *)
Lemma rainbow_call_raises_at_input :
  CartpoleRainbowNetwork_call
    (CartpoleRainbowNetwork (fun x => x) (fun x => x) (fun x => x) 2 2 [-1; 1])
    [[[0]; [0]; [0]; [0]]]
  = Raise TypeError.
Proof.
  apply (proj2 (proj2 (rainbow_call_raises
                         (fun x => x) (fun x => x) (fun x => x) 2 2 [-1; 1]
                         [[[0]; [0]; [0]; [0]]]))
           (CartpoleRainbowNetwork (fun x => x) (fun x => x) (fun x => x)
                                   2 2 [-1; 1])
           (map (chunks 2 2)
                (call (net (CartpoleRainbowNetwork
                              (fun x => x) (fun x => x) (fun x => x)
                              2 2 [-1; 1]))
                      [[[0]; [0]; [0]; [0]]])));
    reflexivity.
Defined.

End NetworkClaims.

(** * Further properties of [DoubleRoomWindyGridWorldEnv] *)

Section GridWorldFrame.

Import PyMonad PyList GridWorld GridRuns.
Open Scope Z_scope.
Open Scope py_scope.

Lemma keeps_ret {A} (a : A) : keeps_config (ret a).
Proof. intros e. reflexivity. Qed.

Lemma keeps_raise {A} (ex : exn) : keeps_config (@raise Env A ex).
Proof. intros e. reflexivity. Qed.

Lemma keeps_get : keeps_config (@get Env).
Proof. intros e. reflexivity. Qed.

Lemma keeps_bind {A B} (c : M Env A) (k : A -> M Env B) :
  keeps_config c -> (forall a, keeps_config (k a)) -> keeps_config (bind c k).
Proof.
  intros Hc Hk e. unfold bind.
  specialize (Hc e). destruct (c e) as [[a | ex] e']; cbn [snd] in *.
  - now rewrite (Hk a e').
  - exact Hc.
Qed.

Lemma keeps_attr {A} (f : Env -> option A) : keeps_config (attr f).
Proof. intros e. unfold attr. destruct (f e); reflexivity. Qed.

Lemma keeps_lift {A} (ex : exn) (o : option A) : keeps_config (lift ex o).
Proof. destruct o; [apply keeps_ret | apply keeps_raise]. Qed.

Lemma keeps_write_x (v : Z) : keeps_config (write_x v).
Proof. intros e. reflexivity. Qed.

Lemma keeps_write_y (v : Z) : keeps_config (write_y v).
Proof. intros e. reflexivity. Qed.

Lemma keeps_assert (c : bool) : keeps_config (@assert Env c).
Proof. destruct c; [apply keeps_ret | apply keeps_raise]. Qed.

Lemma keeps_step (action : Z) (rnd : Rand) : keeps_config (step action rnd).
Proof.
  unfold step.
  apply keeps_bind; [apply keeps_get | intros self].
  apply keeps_bind; [apply keeps_lift | intros [move_x move_y]].
  apply keeps_bind; [apply keeps_attr | intros sx].
  apply keeps_bind; [apply keeps_attr | intros sy].
  apply keeps_bind; [apply keeps_attr | intros cy].
  apply keeps_bind.
  { destruct (contains (windy_columns self) cy); [| apply keeps_ret].
    apply keeps_bind; [apply keeps_attr | intros cy'].
    apply keeps_bind; [apply keeps_lift | intros i].
    apply keeps_bind; [apply keeps_lift | intros lvl].
    apply keeps_bind; [apply keeps_attr | intros cx].
    apply keeps_write_x. }
  intros _.
  apply keeps_bind; [apply keeps_attr | intros cx].
  apply keeps_bind; [apply keeps_attr | intros cy1].
  apply keeps_bind; [apply keeps_write_x | intros _].
  apply keeps_bind; [apply keeps_attr | intros cx2].
  apply keeps_bind; [apply keeps_attr | intros cy2].
  apply keeps_bind; [apply keeps_write_y | intros _].
  apply keeps_bind; [apply keeps_attr | intros cx3].
  apply keeps_bind; [apply keeps_attr | intros cy3].
  apply keeps_bind; [apply keeps_assert | intros _].
  apply keeps_ret.
Qed.

Lemma keeps_reset : keeps_config reset.
Proof.
  unfold reset.
  apply keeps_bind; [apply keeps_get | intros self].
  apply keeps_bind; [apply keeps_write_x | intros _].
  apply keeps_bind; [apply keeps_write_y | intros _].
  apply keeps_ret.
Qed.

Lemma keeps_episode (actions : list Z) (rnd : Rand) (e : Env) :
  config (snd (episode actions rnd e)) = config e.
Proof.
  revert e. induction actions as [| action rest IH]; intros e; [reflexivity |].
  cbn [episode].
  pose proof (keeps_step action rnd e) as Hs.
  destruct (step action rnd e) as [r e'].
  specialize (IH e'). destruct (episode rest rnd e') as [rs e''].
  cbn [snd] in *. congruence.
Qed.

End GridWorldFrame.

Section GridWorldExtras.

Import PyMonad PyList GridWorld GridRuns.
Open Scope Z_scope.

Lemma moves_outside_range (a : Z) :
  ~ 0 <= a < 4 -> dict_get (moves init) a = None.
Proof.
  intros Ha.
  change (moves init) with [(0, (-1, 0)); (1, (0, 1)); (2, (1, 0)); (3, (0, -1))].
  unfold dict_get.
  destruct (0 =? a) eqn:E0; [lia |].
  destruct (1 =? a) eqn:E1; [lia |].
  destruct (2 =? a) eqn:E2; [lia |].
  destruct (3 =? a) eqn:E3; [lia | reflexivity].
Qed.

Lemma step_lookup_fails (e : Env) (action : Z) (rnd : Rand) :
  dict_get (moves e) (executed e action rnd) = None ->
  step action rnd e = (Raise KeyError, e).
Proof.
  intros Hmv. unfold step, bind at 1. unfold get at 1. cbv zeta.
  unfold executed in Hmv. rewrite Hmv. reflexivity.
Qed.

(** X1.  Whatever the state of the object (before or after [reset()]), a
    call of [step] whose action is not one of 0..3 raises [KeyError] and
    writes nothing when no slip occurs; on a slip the given action is not
    looked at, so that any two actions, valid or not, give the same call. *)
Theorem gridworld_step_invalid_action (e : Env) (action : Z) (rnd : Rand) :
  moves e = moves init ->
  (Qltb (uniform rnd) (random_action_prob e) = false ->
   ~ 0 <= action < 4 ->
   step action rnd e = (Raise KeyError, e))
  /\ (Qltb (uniform rnd) (random_action_prob e) = true ->
      forall action' : Z, step action rnd e = step action' rnd e).
Proof.
  intros Hmoves. split.
  - intros Hslip Ha. apply step_lookup_fails.
    unfold executed. rewrite Hslip, Hmoves. now apply moves_outside_range.
  - intros Hslip action'.
    unfold step at 1, bind at 1. unfold get at 1. cbv zeta. rewrite Hslip.
    symmetry.
    unfold step at 1, bind at 1. unfold get at 1. cbv zeta. rewrite Hslip.
    reflexivity.
Qed.

Lemma gridworld_step_invalid_action_witness :
  step 7 (mkRand (1 # 2) 0) (at_pos 3 3) = (Raise KeyError, at_pos 3 3)
  /\ step 7 (mkRand (1 # 20) 2) (at_pos 3 3)
     = step 0 (mkRand (1 # 20) 2) (at_pos 3 3).
Proof.
  split.
  - apply (proj1 (gridworld_step_invalid_action
                    (at_pos 3 3) 7 (mkRand (1 # 2) 0) eq_refl));
      [reflexivity | lia].
  - apply (proj2 (gridworld_step_invalid_action
                    (at_pos 3 3) 7 (mkRand (1 # 20) 2) eq_refl)).
    reflexivity.
Defined.

(** X2.  [step] on an object whose position has not been set (no [reset()]
    yet) raises [AttributeError] once the executed action has a move, and
    leaves the object as it is. *)
Theorem gridworld_step_before_reset
    (e : Env) (action : Z) (rnd : Rand) (mv : Z * Z) :
  dict_get (moves e) (executed e action rnd) = Some mv ->
  x e = None \/ y e = None ->
  step action rnd e = (Raise AttributeError, e).
Proof.
  intros Hmv Hpos. unfold step, bind at 1. unfold get at 1. cbv zeta.
  unfold executed in Hmv. rewrite Hmv. destruct mv as [move_x move_y].
  unfold lift, bind at 1, ret at 1. cbv iota beta.
  unfold bind at 1, attr at 1.
  destruct (x e) as [vx |] eqn:Hx; [| reflexivity].
  destruct Hpos as [Hpos | Hpos]; [discriminate |].
  unfold bind at 1, attr at 1. rewrite Hpos. reflexivity.
Qed.

Lemma gridworld_step_before_reset_witness :
  step 1 (mkRand (1 # 2) 0) init = (Raise AttributeError, init).
Proof.
  apply (gridworld_step_before_reset init 1 (mkRand (1 # 2) 0) (0, 1));
    [reflexivity | left; reflexivity].
Defined.

(** X3.  Neither [step] nor [reset()], nor any sequence of [step] calls,
    changes an attribute other than the position, on any object and whether
    the call returns or raises. *)
Theorem gridworld_config_unchanged (e : Env) :
  (forall (action : Z) (rnd : Rand),
      config (snd (step action rnd e)) = config e)
  /\ config (snd (reset e)) = config e
  /\ (forall (actions : list Z) (rnd : Rand),
        config (snd (episode actions rnd e)) = config e).
Proof.
  split; [| split].
  - intros action rnd. apply keeps_step.
  - apply keeps_reset.
  - intros actions rnd. apply keeps_episode.
Qed.

Lemma executed_move (action : Z) (rnd : Rand) :
  0 <= executed init action rnd < 4 ->
  exists dx dy,
    dict_get (moves init) (executed init action rnd) = Some (dx, dy)
    /\ ((executed init action rnd = 0 /\ dx = -1 /\ dy = 0)
        \/ (executed init action rnd = 1 /\ dx = 0 /\ dy = 1)
        \/ (executed init action rnd = 2 /\ dx = 1 /\ dy = 0)
        \/ (executed init action rnd = 3 /\ dx = 0 /\ dy = -1)).
Proof.
  intros Ha.
  assert (H : executed init action rnd = 0 \/ executed init action rnd = 1
              \/ executed init action rnd = 2 \/ executed init action rnd = 3)
    by lia.
  destruct H as [H | [H | [H | H]]]; rewrite H; cbn;
    do 2 eexists; (split; [reflexivity |]); tauto.
Qed.

(** X4.  From a position in the grid, one [step] changes the column by at
    most 1 and the row by at most 1 downwards and 3 upwards; without wind
    (column 0 and columns 5 and more) the row changes by at most 1; and the
    step does not pass from one side of the door column to the other. *)
Theorem gridworld_step_displacement
    (action : Z) (rnd : Rand) (vx vy : Z) :
  0 <= vx <= 13 -> 0 <= vy <= 10 ->
  0 <= executed init action rnd < 4 ->
  exists nx ny,
    snd (step action rnd (at_pos vx vy)) = at_pos nx ny
    /\ vx - 3 <= nx <= vx + 1
    /\ vy - 1 <= ny <= vy + 1
    /\ (vy = 0 \/ 5 <= vy -> vx - 1 <= nx)
    /\ (vy < 5 -> ny <= 5)
    /\ (5 < vy -> 5 <= ny).
Proof.
  intros Hx Hy Ha.
  destruct (executed_move action rnd Ha) as (dx & dy & Hmv & Hcases).
  exists (next_x vx vy dx), (next_y (next_x vx vy dx) vy dy).
  rewrite (step_at action rnd vx vy dx dy Hmv). cbv zeta.
  split; [reflexivity |].
  assert (Hd : -1 <= dx <= 1 /\ -1 <= dy <= 1) by lia. clear Hcases.
  unfold next_y. rewrite contains_wall_xs.
  set (nx := next_x vx vy dx).
  assert (Hnx : vx - 3 <= nx <= vx + 1
                /\ (vy = 0 \/ 5 <= vy -> vx - 1 <= nx)).
  { unfold nx, next_x. rewrite wind_of_init.
    destruct (vy =? 1) eqn:E1;
      destruct ((2 <=? vy) && (vy <=? 4)) eqn:E2;
      destruct (vy =? 5) eqn:E5; unfold clip; lia. }
  destruct (vy + dy =? 5) eqn:Ed;
    destruct ((0 <=? nx) && (nx <=? 13) && negb (nx =? 3));
    unfold clip; lia.
Qed.

Lemma gridworld_step_displacement_witness :
  exists nx ny,
    snd (step 0 (mkRand (1 # 2) 0) (at_pos 8 4)) = at_pos nx ny
    /\ 8 - 3 <= nx <= 8 + 1
    /\ 4 - 1 <= ny <= 4 + 1
    /\ (4 = 0 \/ 5 <= 4 -> 8 - 1 <= nx)
    /\ (4 < 5 -> ny <= 5)
    /\ (5 < 4 -> 5 <= ny).
Proof.
  apply (gridworld_step_displacement 0 (mkRand (1 # 2) 0) 8 4);
    [lia | lia | cbn; lia].
Defined.

(** X5.  From a position in the grid outside the door column, a [step]
    ends in the door column exactly in two cases: from column 4 and row 5
    with the move to the right (the wind carries the row to 3), and from
    column 6 and row 3 with the move to the left. *)
Theorem gridworld_door_entry (action : Z) (rnd : Rand) (vx vy : Z) :
  0 <= vx <= 13 -> 0 <= vy <= 10 -> vy <> 5 ->
  0 <= executed init action rnd < 4 ->
  (y (snd (step action rnd (at_pos vx vy))) = Some 5
   <-> (vy = 4 /\ vx = 5 /\ executed init action rnd = 1)
       \/ (vy = 6 /\ vx = 3 /\ executed init action rnd = 3)).
Proof.
  intros Hx Hy Hdoor Ha.
  destruct (executed_move action rnd Ha) as (dx & dy & Hmv & Hcases).
  rewrite (step_at action rnd vx vy dx dy Hmv). cbv zeta. cbn [snd].
  change (y (at_pos (next_x vx vy dx) (next_y (next_x vx vy dx) vy dy)))
    with (Some (next_y (next_x vx vy dx) vy dy)).
  assert (Hiff : next_y (next_x vx vy dx) vy dy = 5
                 <-> (vy = 4 /\ vx = 5 /\ executed init action rnd = 1)
                     \/ (vy = 6 /\ vx = 3 /\ executed init action rnd = 3)).
  { unfold next_y, next_x. rewrite contains_wall_xs, wind_of_init.
    destruct (vy =? 1) eqn:E1;
      destruct ((2 <=? vy) && (vy <=? 4)) eqn:E2;
      destruct (vy =? 5) eqn:E5;
      destruct (vy + dy =? 5) eqn:Ed;
      try lia;
      try match goal with
          | |- context [if ?b then _ else _] => destruct b eqn:Ew
          end;
      unfold clip in *; lia. }
  split.
  - intros [= Hn]. now apply Hiff.
  - intros Hc. f_equal. now apply Hiff.
Qed.

Lemma gridworld_door_entry_witness :
  y (snd (step 1 (mkRand (1 # 2) 0) (at_pos 5 4))) = Some 5
  <-> (4 = 4 /\ 5 = 5 /\ executed init 1 (mkRand (1 # 2) 0) = 1)
      \/ (4 = 6 /\ 5 = 3 /\ executed init 1 (mkRand (1 # 2) 0) = 3).
Proof.
  apply (gridworld_door_entry 1 (mkRand (1 # 2) 0) 5 4);
    [lia | lia | lia | cbn; lia].
Defined.

Lemma step_without_slip (action : Z) (rnd rnd' : Rand) (e : Env) :
  Qltb (uniform rnd) (random_action_prob e) = false ->
  Qltb (uniform rnd') (random_action_prob e) = false ->
  step action rnd e = step action rnd' e.
Proof.
  intros Hs Hs'.
  unfold step at 1, bind at 1. unfold get at 1. cbv zeta. rewrite Hs.
  symmetry.
  unfold step at 1, bind at 1. unfold get at 1. cbv zeta. rewrite Hs'.
  reflexivity.
Qed.

Lemma episode_without_slip (actions : list Z) (rnd rnd' : Rand) (e : Env) :
  random_action_prob e = random_action_prob init ->
  Qltb (uniform rnd) (random_action_prob init) = false ->
  Qltb (uniform rnd') (random_action_prob init) = false ->
  episode actions rnd e = episode actions rnd' e.
Proof.
  intros He Hs Hs'. revert e He.
  induction actions as [| action rest IH]; intros e He; [reflexivity |].
  cbn [episode].
  rewrite (step_without_slip action rnd rnd' e) by (rewrite He; assumption).
  pose proof (keeps_step action rnd' e) as Hk.
  destruct (step action rnd' e) as [r e'].
  rewrite IH; [reflexivity |].
  cbn [snd] in Hk. unfold config in Hk.
  injection Hk as _ _ _ _ _ _ _ Hp _ _. congruence.
Qed.

(** X6.  The goal can be reached: after [reset()], the 21 actions right x4,
    up, right x2, down x10, right x4 end at the goal cell when no slip
    occurs; the last call returns reward 1 and done [True], every call
    before it reward 0 and done [False]; the door is passed at (3, 5). *)
Theorem gridworld_goal_reachable (rnd : Rand) :
  Qltb (uniform rnd) (random_action_prob init) = false ->
  let actions :=
    [1; 1; 1; 1; 0; 1; 1] ++ repeat 2 10 ++ repeat 1 4 in
  Forall (fun a => 0 <= a < 4) actions
  /\ snd (episode actions rnd (snd (reset init))) = at_pos 13 10
  /\ last (fst (episode actions rnd (snd (reset init)))) (Raise KeyError)
     = Ok ((13, 10), 1, true)
  /\ Forall (fun r => exists pos, r = Ok (pos, 0, false))
            (removelast (fst (episode actions rnd (snd (reset init)))))
  /\ snd (episode (firstn 6 actions) rnd (snd (reset init))) = at_pos 3 5.
Proof.
  intros Hs actions.
  assert (Hs0 : Qltb (uniform (mkRand (1 # 2) 0)) (random_action_prob init)
                = false) by reflexivity.
  rewrite (episode_without_slip actions rnd (mkRand (1 # 2) 0)
             (snd (reset init)) eq_refl Hs Hs0).
  rewrite (episode_without_slip (firstn 6 actions) rnd (mkRand (1 # 2) 0)
             (snd (reset init)) eq_refl Hs Hs0).
  split; [unfold actions; cbn; repeat constructor; lia |].
  split; [vm_compute; reflexivity |].
  split; [vm_compute; reflexivity |].
  split; [| vm_compute; reflexivity].
  vm_compute. repeat constructor; eexists; reflexivity.
Qed.

Lemma gridworld_goal_reachable_witness :
  snd (episode ([1; 1; 1; 1; 0; 1; 1] ++ repeat 2 10 ++ repeat 1 4)
               (mkRand (9 # 10) 3) (snd (reset init)))
  = at_pos 13 10.
Proof.
  exact (proj1 (proj2 (gridworld_goal_reachable (mkRand (9 # 10) 3) eq_refl))).
Defined.

End GridWorldExtras.

(** * Further properties of [GymPreprocessing] and [create_gym_environment] *)

Section WrapperRunsFacts.

Import PyMonad Wrapper WrapperRuns.

Context {E : Type} `{GymEnv E}.

Lemma run_wrapper_replies (requests : list request) (self : GymPreprocessing E) :
  fst (run_wrapper requests self)
  = fst (run_environment requests (environment self))
  /\ environment (snd (run_wrapper requests self))
     = snd (run_environment requests (environment self)).
Proof.
  revert self. induction requests as [| [| action] rest IH]; intros self.
  - split; reflexivity.
  - cbn [run_wrapper run_environment]. unfold reset, on_environment.
    destruct (env_reset (environment self)) as [r e'].
    specialize (IH {| environment := e'; game_over := game_over self |}).
    cbn [environment] in IH.
    destruct (run_wrapper rest _) as [rs self''].
    destruct (run_environment rest e') as [rs' e''].
    cbn [fst snd] in *. destruct IH as [-> ->]. split; reflexivity.
  - cbn [run_wrapper run_environment]. unfold step, bind, on_environment.
    destruct (env_step action (environment self))
      as [[[[[o r] d] i] | ex] e'].
    + cbn [write_game_over ret].
      specialize (IH {| environment := e'; game_over := d |}).
      cbn [environment] in IH.
      destruct (run_wrapper rest _) as [rs self''].
      destruct (run_environment rest e') as [rs' e''].
      cbn [fst snd] in *. destruct IH as [-> ->]. split; reflexivity.
    + specialize (IH {| environment := e'; game_over := game_over self |}).
      cbn [environment] in IH.
      destruct (run_wrapper rest _) as [rs self''].
      destruct (run_environment rest e') as [rs' e''].
      cbn [fst snd] in *. destruct IH as [-> ->]. split; reflexivity.
Qed.

Lemma run_wrapper_game_over (requests : list request) (self : GymPreprocessing E) :
  game_over (snd (run_wrapper requests self))
  = last_done (fst (run_wrapper requests self)) (game_over self).
Proof.
  revert self. induction requests as [| [| action] rest IH]; intros self.
  - reflexivity.
  - cbn [run_wrapper]. unfold reset, on_environment.
    destruct (env_reset (environment self)) as [r e'].
    specialize (IH {| environment := e'; game_over := game_over self |}).
    destruct (run_wrapper rest _) as [rs self''].
    cbn [fst snd last_done game_over] in *. exact IH.
  - cbn [run_wrapper]. unfold step, bind, on_environment.
    destruct (env_step action (environment self))
      as [[[[[o r] d] i] | ex] e'].
    + cbn [write_game_over ret].
      specialize (IH {| environment := e'; game_over := d |}).
      destruct (run_wrapper rest _) as [rs self''].
      cbn [fst snd last_done game_over] in *. exact IH.
    + specialize (IH {| environment := e'; game_over := game_over self |}).
      destruct (run_wrapper rest _) as [rs self''].
      cbn [fst snd last_done game_over] in *. exact IH.
Qed.

(** X7.  The wrapper is transparent: any sequence of [reset()] and [step]
    calls made on it gives, call by call, the results and the exceptions
    that the same calls give on the underlying environment, and leaves the
    underlying environment in the same state. *)
Theorem wrapper_transparent
    (requests : list request) (self : GymPreprocessing E) :
  fst (run_wrapper requests self)
  = fst (run_environment requests (environment self))
  /\ environment (snd (run_wrapper requests self))
     = snd (run_environment requests (environment self))
  /\ length (fst (run_wrapper requests self)) = length requests.
Proof.
  destruct (run_wrapper_replies requests self) as [Hr He].
  split; [exact Hr | split; [exact He |]].
  clear Hr He. revert self.
  induction requests as [| [| action] rest IH]; intros self;
    [reflexivity | |]; cbn [run_wrapper].
  - destruct (reset self) as [r self'].
    specialize (IH self'). destruct (run_wrapper rest self').
    cbn [fst length] in *. now rewrite IH.
  - destruct (step action self) as [r self'].
    specialize (IH self'). destruct (run_wrapper rest self').
    cbn [fst length] in *. now rewrite IH.
Qed.

(** X8.  After any sequence of [reset()] and [step] calls, [game_over] is
    the done flag of the last [step] that returned; calls that raised and
    calls of [reset()] do not count, and without a returned [step] the flag
    is what it was (for a new wrapper, [False]). *)
Theorem wrapper_game_over_tracks_last_step
    (requests : list request) :
  (forall self : GymPreprocessing E,
      game_over (snd (run_wrapper requests self))
      = last_done (fst (run_wrapper requests self)) (game_over self))
  /\ (forall environment : E,
        game_over (snd (run_wrapper requests (new environment)))
        = last_done (fst (run_environment requests environment)) false).
Proof.
  split.
  - intros self. apply run_wrapper_game_over.
  - intros environment.
    rewrite run_wrapper_game_over.
    now rewrite (proj1 (run_wrapper_replies requests (new environment))).
Qed.

(** X9.  [create_gym_environment] without a name fails its assertion
    whatever [gym.make] would do; an exception of [gym.make] is passed on;
    otherwise the result wraps the [env] attribute of what
    [gym.make(name-version)] returned, with [game_over] [False], so that
    the calls made on the result are answered by that inner environment,
    not by the time-limit wrapper around it. *)
Theorem create_gym_environment_result
    (gym_make : String.string -> outcome (TimeLimit E)) (version : String.string) :
  create_gym_environment gym_make None version = Raise AssertionError
  /\ (forall (name : String.string) (ex : exn),
        gym_make (String.append name (String.append "-" version)) = Raise ex ->
        create_gym_environment gym_make (Some name) version = Raise ex)
  /\ (forall (name : String.string) (made : TimeLimit E),
        gym_make (String.append name (String.append "-" version)) = Ok made ->
        exists self,
          create_gym_environment gym_make (Some name) version = Ok self
          /\ environment self = env made
          /\ game_over self = false
          /\ forall requests : list request,
               fst (run_wrapper requests self)
               = fst (run_environment requests (env made))).
Proof.
  split; [reflexivity | split].
  - intros name ex Hm. unfold create_gym_environment. now rewrite Hm.
  - intros name made Hm. unfold create_gym_environment. rewrite Hm.
    eexists. split; [reflexivity |]. split; [reflexivity |].
    split; [reflexivity |].
    intros requests. apply run_wrapper_replies.
Qed.

End WrapperRunsFacts.

(** The countdown registered under the name CountDown-v0: three steps after
    a reset, the third of which is done. *)
Lemma create_gym_environment_result_witness :
  exists self,
    WrapperRuns.create_gym_environment WrapperRuns.countdown_make
      (Some WrapperRuns.countdown_name) WrapperRuns.countdown_version = Ok self
    /\ Wrapper.game_over self = false
    /\ fst (WrapperRuns.run_wrapper WrapperRuns.countdown_requests self)
       = fst (WrapperRuns.run_environment WrapperRuns.countdown_requests
                5%nat).
Proof.
  destruct (proj2 (proj2
              (@create_gym_environment_result _ Wrapper.Countdown.countdown_env
                 WrapperRuns.countdown_make WrapperRuns.countdown_version))
              WrapperRuns.countdown_name
              (WrapperRuns.mkTimeLimit 5%nat 200%Z) eq_refl)
    as (self & Hc & _ & Hg & Hr).
  exists self. split; [exact Hc |]. split; [exact Hg |]. apply Hr.
Defined.

(** * Further properties of [FourierBasis] *)

Section FourierExtras.

Import PyMonad PyList Tensor Fourier.
Open Scope R_scope.

Lemma tl_short {A} (l : list A) : (length l <= 1)%nat -> tl l = [].
Proof.
  destruct l as [| a [| b l]]; cbn; [reflexivity | reflexivity | lia].
Qed.

(** X10.  The constructor at its edges: a negative [nvars] raises
    [ValueError]; with [nvars >= 0], an order of 0 or less, or no variable
    at all, gives an empty multiplier matrix (no feature). *)
Theorem fourier_new_edges
    (nvars order : Z) (mn : bound) (mx : option bound) :
  ((nvars < 0)%Z -> new nvars mn mx order = Raise ValueError)
  /\ ((0 <= nvars)%Z -> (order <= 0)%Z \/ nvars = 0%Z ->
      new nvars mn mx order
      = Ok (mkFourierBasis order mn mx [])).
Proof.
  unfold new. split.
  - intros Hn. destruct (nvars <? 0)%Z eqn:E; [reflexivity | lia].
  - intros Hn Hedge. destruct (nvars <? 0)%Z eqn:E; [lia |].
    do 2 f_equal. apply tl_short.
    rewrite product_length, range_length.
    destruct Hedge as [Ho | ->]; [| cbn; lia].
    assert (Hp : (Z.to_nat (order + 1) <= 1)%nat) by lia.
    destruct (Z.to_nat (order + 1)) as [| [| k]]; [| | lia].
    + destruct (Z.to_nat nvars); cbn; lia.
    + rewrite Nat.pow_1_l. lia.
Qed.

Lemma fourier_new_edges_witness :
  new (-1) (Scalar 0) None 3 = Raise ValueError
  /\ new 4 (Scalar 0) None 0 = Ok (mkFourierBasis 0 (Scalar 0) None []).
Proof.
  split.
  - apply (proj1 (fourier_new_edges (-1) 3 (Scalar 0) None)). lia.
  - apply (proj2 (fourier_new_edges 4 0 (Scalar 0) None)); [lia | left; lia].
Defined.





End FourierExtras.

(** * The normalisation of [BasicDiscreteDomainNetwork] in binary32 *)

Section NormalisationFacts.

Import Float FTensor Network32.











End NormalisationFacts.

(** * [FourierBasis] and [FourierDQNNetwork] in binary32 *)

Section FourierFloatFacts.

Import PyMonad PyList Float FTensor Fourier32.

Variable dot32 : list float -> list float -> float.
Variable cos32 : float -> float.

Lemma scale_unfold (self : FourierBasis) (values : tensor2) :
  scale values self
  = (FTensor.bind (broadcast sub32 values (array_to32 (min_vals self)))
       (fun shifted =>
          match max_vals self with
          | None => Ok shifted
          | Some mx =>
              FTensor.bind (array_op sub64 mx (min_vals self))
                (fun d => broadcast div32 shifted (array_to32 d))
          end), self).
Proof.
  unfold scale, PyMonad.bind at 1. unfold get at 1. cbv iota beta.
  unfold PyMonad.bind at 1, lift at 1.
  destruct (broadcast sub32 values (array_to32 (min_vals self)))
    as [shifted | e]; [| reflexivity].
  cbn [FTensor.bind].
  destruct (max_vals self) as [mx |]; [| reflexivity].
  unfold PyMonad.bind, lift.
  destruct (array_op sub64 mx (min_vals self)); reflexivity.
Qed.

Lemma compute_features_unfold (self : FourierBasis) (features : tensor2) :
  compute_features dot32 cos32 features self
  = (match fst (scale features self) with
     | Raise e => Raise e
     | Ok scaled =>
         match matmul_transpose_b dot32 scaled
                 (map (map of_Z32) (multipliers self)) with
         | Raise e => Raise e
         | Ok product =>
             Ok (mkTensor2
                   (map (map (fun a => cos32 (mul32 pi32 a))) (rows product))
                   (cols product))
         end
     end, self).
Proof.
  unfold compute_features, PyMonad.bind at 1.
  rewrite scale_unfold. cbn [fst].
  destruct (FTensor.bind _ _) as [scaled | e]; [| reflexivity].
  unfold PyMonad.bind, get, lift, ret.
  destruct (matmul_transpose_b dot32 scaled _); reflexivity.
Qed.

Lemma matmul_features (scaled : tensor2) (multipliers : list (list Z)) :
  multipliers <> [] ->
  multipliers_width multipliers = cols scaled ->
  match matmul_transpose_b dot32 scaled (map (map of_Z32) multipliers) with
  | Raise e => Raise e
  | Ok product =>
      Ok (mkTensor2
            (map (map (fun a => cos32 (mul32 pi32 a))) (rows product))
            (cols product))
  end
  = Ok (features_of dot32 cos32 scaled multipliers).
Proof.
  intros Hne Hw. destruct multipliers as [| m0 rest]; [contradiction |].
  cbn [multipliers_width] in Hw.
  unfold matmul_transpose_b. cbn [map].
  rewrite length_map, Hw, Nat.eqb_refl. cbn [rows cols].
  unfold features_of. f_equal. f_equal.
  - rewrite map_map. apply map_ext. intros r.
    cbn [map]. rewrite !map_map. reflexivity.
  - cbn [length]. now rewrite length_map.
Qed.

Lemma matmul_raises (scaled : tensor2) (multipliers : list (list Z)) :
  multipliers = [] \/ multipliers_width multipliers <> cols scaled ->
  exists e,
    matmul_transpose_b dot32 scaled (map (map of_Z32) multipliers) = Raise e.
Proof.
  intros H. destruct multipliers as [| m0 rest].
  - eexists. reflexivity.
  - destruct H as [H | H]; [discriminate |].
    cbn [multipliers_width] in H. unfold matmul_transpose_b. cbn [map].
    rewrite length_map.
    destruct (Nat.eqb (length m0) (cols scaled)) eqn:E.
    + apply Nat.eqb_eq in E. contradiction.
    + eexists. reflexivity.
Qed.




Lemma new_empty (nvars order : Z) (mn : array) (mx : option array)
    (self : FourierBasis) :
  new nvars mn mx order = Ok self ->
  (order <= 0)%Z \/ nvars = 0%Z ->
  multipliers self = [].
Proof.
  unfold new. destruct (nvars <? 0)%Z eqn:E; [discriminate |].
  intros [= <-] Hedge. cbn [multipliers]. apply tl_short.
  rewrite product_length, range_length.
  destruct Hedge as [Ho | ->]; [| cbn; lia].
  assert (Hp : (Z.to_nat (order + 1) <= 1)%nat) by lia.
  destruct (Z.to_nat (order + 1)) as [| [| k]]; [| | lia].
  - destruct (Z.to_nat nvars); cbn; lia.
  - rewrite Nat.pow_1_l. lia.
Qed.

Lemma new_length (nvars order : Z) (mn : array) (mx : option array)
    (self : FourierBasis) :
  new nvars mn mx order = Ok self ->
  (0 <= order)%Z ->
  Z.of_nat (length (multipliers self)) = ((order + 1) ^ nvars - 1)%Z.
Proof.
  unfold new. destruct (nvars <? 0)%Z eqn:E; [discriminate |].
  intros [= <-] Ho. cbn [multipliers].
  pose proof (product_length (range (order + 1)) (Z.to_nat nvars)) as Hlen.
  rewrite range_length in Hlen.
  assert (Hz : Z.of_nat (length (Fourier.product (range (order + 1))
                                                 (Z.to_nat nvars)))
               = ((order + 1) ^ nvars)%Z).
  { rewrite Hlen, Nat2Z.inj_pow, !Z2Nat.id by lia. reflexivity. }
  assert (Hpos : (0 < (order + 1) ^ nvars)%Z)
    by (apply Z.pow_pos_nonneg; lia).
  destruct (Fourier.product (range (order + 1)) (Z.to_nat nvars))
    as [| first rest]; cbn [tl length] in *; lia.
Qed.

Lemma new_rows (nvars order : Z) (mn : array) (mx : option array)
    (self : FourierBasis) :
  new nvars mn mx order = Ok self ->
  (1 <= order)%Z -> (1 <= nvars)%Z ->
  multipliers self <> []
  /\ multipliers_width (multipliers self) = Z.to_nat nvars.
Proof.
  intros Hnew Ho Hn.
  pose proof (new_length nvars order mn mx self Hnew ltac:(lia)) as Hlen.
  assert (Hbig : (2 <= (order + 1) ^ nvars)%Z).
  { replace nvars with (Z.succ (nvars - 1)) by lia.
    rewrite Z.pow_succ_r by lia.
    assert (0 < (order + 1) ^ (nvars - 1))%Z by (apply Z.pow_pos_nonneg; lia).
    nia. }
  unfold new in Hnew. destruct (nvars <? 0)%Z eqn:E; [discriminate |].
  injection Hnew as <-. cbn [multipliers] in *.
  pose proof (product_In (range (order + 1)) (Z.to_nat nvars)) as Hin.
  destruct (Fourier.product (range (order + 1)) (Z.to_nat nvars))
    as [| first [| second rest]]; cbn [tl length] in *; try lia.
  split; [discriminate |].
  cbn [multipliers_width].
  apply (Hin second). right. now left.
Qed.

(** X11.  A [FourierBasis] built with an order of 0 or less, or for no
    variable, is unusable: [compute_features] raises on every batch.  One
    built with [order >= 1] for [nvars >= 1] variables passes on an
    exception of [scale]; on a scaled batch of width [nvars] it returns one
    row of [(order+1)^nvars - 1] features per item, and on any other width
    it raises. *)
Theorem fourier_features_raise_or_return
    (nvars order : Z) (mn : array) (mx : option array)
    (self : FourierBasis) (features : tensor2) :
  new nvars mn mx order = Ok self ->
  ((order <= 0)%Z \/ nvars = 0%Z ->
   exists e, fst (compute_features dot32 cos32 features self) = Raise e)
  /\ ((1 <= order)%Z -> (1 <= nvars)%Z ->
      (forall e : exn,
          fst (scale features self) = Raise e ->
          fst (compute_features dot32 cos32 features self) = Raise e)
      /\ forall scaled : tensor2,
           fst (scale features self) = Ok scaled ->
           (cols scaled = Z.to_nat nvars ->
            exists out,
              fst (compute_features dot32 cos32 features self) = Ok out
              /\ length (rows out) = length (rows scaled)
              /\ Z.of_nat (cols out) = ((order + 1) ^ nvars - 1)%Z
              /\ Forall (fun r => length r = cols out) (rows out))
           /\ (cols scaled <> Z.to_nat nvars ->
               exists e,
                 fst (compute_features dot32 cos32 features self) = Raise e)).
Proof.
  intros Hnew. split.
  - intros Hedge. rewrite compute_features_unfold. cbn [fst].
    destruct (fst (scale features self)) as [scaled | e];
      [| now exists e].
    rewrite (new_empty nvars order mn mx self Hnew Hedge).
    eexists. reflexivity.
  - intros Ho Hn.
    destruct (new_rows nvars order mn mx self Hnew Ho Hn) as [Hne Hw].
    split.
    + intros e He. rewrite compute_features_unfold. cbn [fst]. now rewrite He.
    + intros scaled Hs. split.
      * intros Hcols. rewrite compute_features_unfold. cbn [fst]. rewrite Hs.
        rewrite matmul_features by congruence.
        eexists. split; [reflexivity |].
        unfold features_of. cbn [rows cols].
        split; [apply length_map |].
        split; [apply (new_length nvars order mn mx self Hnew); lia |].
        apply Forall_map. apply Forall_forall. intros r _. apply length_map.
      * intros Hcols. rewrite compute_features_unfold. cbn [fst]. rewrite Hs.
        destruct (matmul_raises scaled (multipliers self)) as [e He];
          [right; congruence |].
        rewrite He. now exists e.
Qed.

Lemma call_with_generator
    (self : FourierDQNNetwork) (fb : FourierBasis) (state : tensor3) :
  feature_generator self = Some fb ->
  call dot32 cos32 state self
  = (match fst (compute_features dot32 cos32 (flatten (cast32 state)) fb) with
     | Ok features => Ok (last_layer self features)
     | Raise e => Raise e
     end, self).
Proof.
  intros Hgen. unfold call, PyMonad.bind at 1. unfold get at 1. cbv zeta.
  cbv iota beta. rewrite Hgen.
  unfold PyMonad.bind at 1, ret at 1. cbv iota beta.
  unfold PyMonad.bind at 1, on_feature_generator. rewrite Hgen.
  rewrite compute_features_unfold. cbn [fst].
  assert (Hself : with_generator self fb = self).
  { destruct self as [na ord mn mx ll gen]. cbn in Hgen. subst gen.
    reflexivity. }
  rewrite Hself.
  destruct (match fst (scale (flatten (cast32 state)) fb) with
            | Ok scaled => _
            | Raise e => Raise e
            end) as [features | e]; reflexivity.
Qed.

Lemma call_first
    (self : FourierDQNNetwork) (fb : FourierBasis) (state : tensor3) :
  feature_generator self = None ->
  new (Z.of_nat (dim1 state * dim2 state)) (net_min_vals self)
      (net_max_vals self) (fourier_basis_order self) = Ok fb ->
  call dot32 cos32 state self
  = (match fst (compute_features dot32 cos32 (flatten (cast32 state)) fb) with
     | Ok features => Ok (last_layer self features)
     | Raise e => Raise e
     end, with_generator self fb).
Proof.
  intros Hgen Hnew.
  unfold call, PyMonad.bind at 1. unfold get at 1. cbv zeta.
  cbv iota beta. rewrite Hgen.
  cbn [flatten cast32 cols dim1 dim2].
  rewrite Hnew. unfold PyMonad.bind at 1, lift at 1. cbv iota beta.
  unfold PyMonad.bind at 1. cbv iota beta. unfold put at 1. cbv iota beta.
  unfold PyMonad.bind at 1, on_feature_generator.
  cbn [feature_generator with_generator].
  rewrite compute_features_unfold. cbn [fst].
  destruct (match fst (scale _ fb) with
            | Ok scaled => _
            | Raise e => Raise e
            end) as [features | e]; reflexivity.
Qed.

(** X15.  The first call of a [FourierDQNNetwork] (no feature generator
    yet, an order of 0 or more) builds the generator from the static width
    [n] of the flattened input and stores it, with [(order+1)^n - 1]
    multiplier rows, whether the call then returns or raises; the call
    returns the last layer applied to the features of that generator, or
    raises what [compute_features] raises, which it does for an order of 0
    and for inputs of width 0. *)
Theorem fourier_network_first_call
    (self : FourierDQNNetwork) (state : tensor3) :
  feature_generator self = None ->
  (0 <= fourier_basis_order self)%Z ->
  exists fb,
    new (Z.of_nat (dim1 state * dim2 state)) (net_min_vals self)
        (net_max_vals self) (fourier_basis_order self) = Ok fb
    /\ snd (call dot32 cos32 state self) = with_generator self fb
    /\ Z.of_nat (length (multipliers fb))
       = ((fourier_basis_order self + 1)
          ^ Z.of_nat (dim1 state * dim2 state) - 1)%Z
    /\ fst (call dot32 cos32 state self)
       = match fst (compute_features dot32 cos32
                      (flatten (cast32 state)) fb) with
         | Ok features => Ok (last_layer self features)
         | Raise e => Raise e
         end
    /\ (fourier_basis_order self = 0%Z
        \/ (dim1 state * dim2 state)%nat = 0%nat ->
        exists e, fst (call dot32 cos32 state self) = Raise e).
Proof.
  intros Hgen Ho.
  destruct (new (Z.of_nat (dim1 state * dim2 state)) (net_min_vals self)
                (net_max_vals self) (fourier_basis_order self))
    as [fb | ex] eqn:Hnew.
  2: { unfold new in Hnew.
       pose proof (Nat2Z.is_nonneg (dim1 state * dim2 state)) as Hn.
       destruct (Z.ltb_spec (Z.of_nat (dim1 state * dim2 state)) 0);
         [lia | discriminate]. }
  exists fb. rewrite (call_first self fb state Hgen Hnew). cbn [fst snd].
  split; [reflexivity |]. split; [reflexivity |].
  split; [now apply (new_length _ _ _ _ fb Hnew) |].
  split; [reflexivity |].
  intros Hedge.
  destruct (fourier_features_raise_or_return _ _ _ _ fb
              (flatten (cast32 state)) Hnew) as [Hraise _].
  destruct Hraise as [e He];
    [destruct Hedge as [-> | ->]; [left; lia | right; reflexivity] |].
  rewrite He. now exists e.
Qed.

(** X16.  Once the feature generator exists it is kept: a call leaves the
    network as it is, whether it returns or raises, and computes the
    features with that generator, so that the generator still is the same
    after any two calls; when the scaled input is not as wide as the
    multipliers of the generator, the call raises. *)
Theorem fourier_network_generator_kept
    (self : FourierDQNNetwork) (fb : FourierBasis) (state : tensor3) :
  feature_generator self = Some fb ->
  snd (call dot32 cos32 state self) = self
  /\ fst (call dot32 cos32 state self)
     = match fst (compute_features dot32 cos32
                    (flatten (cast32 state)) fb) with
       | Ok features => Ok (last_layer self features)
       | Raise e => Raise e
       end
  /\ (forall state' : tensor3,
        feature_generator
          (snd (call dot32 cos32 state' (snd (call dot32 cos32 state self))))
        = Some fb)
  /\ (forall scaled : tensor2,
        fst (scale (flatten (cast32 state)) fb) = Ok scaled ->
        multipliers_width (multipliers fb) <> cols scaled ->
        exists e, fst (call dot32 cos32 state self) = Raise e).
Proof.
  intros Hgen. rewrite (call_with_generator self fb state Hgen).
  cbn [fst snd].
  split; [reflexivity |]. split; [reflexivity |]. split.
  - intros state'. rewrite (call_with_generator self fb state' Hgen).
    exact Hgen.
  - intros scaled Hs Hw. rewrite compute_features_unfold. cbn [fst].
    rewrite Hs.
    destruct (matmul_raises scaled (multipliers fb)) as [e He];
      [now right |].
    rewrite He. now exists e.
Qed.

End FourierFloatFacts.

Section FourierFloatWitnesses.

Import PyMonad PyList Float FTensor Fourier32.



Lemma fourier_features_raise_or_return_witness :
  exists out,
    fst (compute_features sequential_dot32 coarse_cos32
           (mkTensor2 [[to32 (literal 7 10); to32 (literal 1 10)]] 2)
           (mkFourierBasis 1 (Scalar (of_Z64 0)) None
                           [[0; 1]; [1; 0]; [1; 1]]%Z))
    = Ok out
    /\ length (rows out) = 1%nat
    /\ Z.of_nat (cols out) = ((1 + 1) ^ 2 - 1)%Z
    /\ Forall (fun r => length r = cols out) (rows out).
Proof.
  apply (proj1 (proj2 (proj2 (fourier_features_raise_or_return
                         sequential_dot32 coarse_cos32
                         2 1 (Scalar (of_Z64 0)) None
                         (mkFourierBasis 1 (Scalar (of_Z64 0)) None
                                         [[0; 1]; [1; 0]; [1; 1]]%Z)
                         (mkTensor2 [[to32 (literal 7 10);
                                      to32 (literal 1 10)]] 2)
                         eq_refl)
                  ltac:(lia) ltac:(lia))
           (mkTensor2 [[to32 (literal 7 10); to32 (literal 1 10)]] 2)
           eq_refl)).
  reflexivity.
Defined.

Lemma fourier_network_first_call_witness :
  exists fb,
    snd (call sequential_dot32 coarse_cos32
           (Network32.batch_of Network32.CARTPOLE_MAX_VALS 1)
           (new_network (Vector Network32.CARTPOLE_MIN_VALS)
                        (Some (Vector Network32.CARTPOLE_MAX_VALS))
                        2 3 (fun x => x)))
    = with_generator
        (new_network (Vector Network32.CARTPOLE_MIN_VALS)
                     (Some (Vector Network32.CARTPOLE_MAX_VALS))
                     2 3 (fun x => x)) fb
    /\ Z.of_nat (length (multipliers fb)) = 255%Z.
Proof.
  destruct (fourier_network_first_call sequential_dot32 coarse_cos32
              (new_network (Vector Network32.CARTPOLE_MIN_VALS)
                           (Some (Vector Network32.CARTPOLE_MAX_VALS))
                           2 3 (fun x => x))
              (Network32.batch_of Network32.CARTPOLE_MAX_VALS 1)
              eq_refl ltac:(cbn; lia))
    as (fb & _ & Hsnd & Hlen & _).
  exists fb. split; [exact Hsnd | exact Hlen].
Defined.

Lemma fourier_network_generator_kept_witness :
  snd (call sequential_dot32 coarse_cos32
         (mkTensor3 [[[literal 5 10]; [literal 7 10]]] 2 1)
         (mkFourierNet 2 1 (Scalar (of_Z64 0)) None (fun x => x)
                       (Some (mkFourierBasis 1 (Scalar (of_Z64 0)) None
                                             [[1%Z]]))))
  = mkFourierNet 2 1 (Scalar (of_Z64 0)) None (fun x => x)
                 (Some (mkFourierBasis 1 (Scalar (of_Z64 0)) None [[1%Z]]))
  /\ exists e,
       fst (call sequential_dot32 coarse_cos32
              (mkTensor3 [[[literal 5 10]; [literal 7 10]]] 2 1)
              (mkFourierNet 2 1 (Scalar (of_Z64 0)) None (fun x => x)
                            (Some (mkFourierBasis 1 (Scalar (of_Z64 0)) None
                                                  [[1%Z]]))))
       = Raise e.
Proof.
  pose proof (fourier_network_generator_kept sequential_dot32 coarse_cos32
                (mkFourierNet 2 1 (Scalar (of_Z64 0)) None (fun x => x)
                   (Some (mkFourierBasis 1 (Scalar (of_Z64 0)) None [[1%Z]])))
                (mkFourierBasis 1 (Scalar (of_Z64 0)) None [[1%Z]])
                (mkTensor3 [[[literal 5 10]; [literal 7 10]]] 2 1) eq_refl)
    as (Hsnd & _ & _ & Hraise).
  split; [exact Hsnd |].
  apply (Hraise (mkTensor2 [[to32 (literal 5 10); to32 (literal 7 10)]] 2));
    [reflexivity | cbn; lia].
Defined.

End FourierFloatWitnesses.
